(** * Prometheus dead man's switch: the heartbeat Recorder (api.py) and the
      liveness Evaluator (checker.py), embedded and checked against the
      specification's claims.

    The two Lambda handlers are tiny programs whose whole behaviour is their
    effect on the outside world: a DynamoDB table, the Slack API, the logger
    and the clock.  The embedding therefore threads an explicit [world]
    (the table and a journal of every request and log line issued) through an
    exception-aware state monad, and takes the answers of the outside world
    (clock readings, whether a request fails) as an explicit [moment]. *)

From Stdlib Require Import ZArith String Ascii DecimalString DecimalPos DecimalZ.
From stdpp Require Import base gmap strings list fin_maps.

Local Open Scope Z_scope.
Local Open Scope string_scope.
Local Open Scope list_scope.

(** ** Python values and built-ins used by both handlers *)

Module Py.

(** Exceptions that can leave a handler. *)
Inductive exn :=
| KeyError (key : string)
| ValueError (what : string)
| SystemExit (code : Z)
| ClientError (err : string)
| RequestException (err : string)
| Exception (msg : string).

Inductive result (A : Type) :=
| Ok (a : A)
| Raise (e : exn).
Arguments Ok {A} a.
Arguments Raise {A} e.

(** [str(n)] for a Python integer: the decimal numeral, with a leading
    minus sign for negative numbers. *)
Definition str (n : Z) : string := NilZero.string_of_int (Z.to_int n).

(** The line feed of the Python literal '\n'. *)
Definition nl : string := String "010"%char EmptyString.

(** [needle in haystack] for strings. *)
Fixpoint prefix_of (p s : string) : bool :=
  match p, s with
  | EmptyString, _ => true
  | String a p', String b s' => if Ascii.eqb a b then prefix_of p' s' else false
  | String _ _, EmptyString => false
  end.

Fixpoint contains (needle haystack : string) : bool :=
  prefix_of needle haystack ||
  match haystack with
  | EmptyString => false
  | String _ rest => contains needle rest
  end.

(** [s.split(sep)] for a one-character separator: the fields between the
    separators, in order; the empty string has the one field [""]. *)
Fixpoint split (sep : ascii) (s : string) : list string :=
  match s with
  | EmptyString => [EmptyString]
  | String c rest =>
      if Ascii.eqb c sep then EmptyString :: split sep rest
      else match split sep rest with
           | field :: fields => String c field :: fields
           | [] => [String c EmptyString]
           end
  end.

(** [sep.join(fields)]. *)
Fixpoint join (sep : ascii) (fields : list string) : string :=
  match fields with
  | [] => EmptyString
  | [field] => field
  | field :: rest => field +:+ String sep (join sep rest)
  end.

End Py.

(** ** The outside world *)

Module World.
Import Py.

(** Logging levels of the standard [logging] module that the handlers use. *)
Inductive level := INFO | WARNING | ERROR | CRITICAL.

(** One row of the DynamoDB table.  The key [cluster_name] is the key of the
    map below; both attributes are optional, as DynamoDB has no schema for
    non-key attributes. *)
Record item := Item {
  epoch_seconds : option Z;
  error_state : option bool
}.

(** One dict of a scan with the projection
    ["cluster_name, epoch_seconds, error_state"]. *)
Record cluster := Cluster {
  cluster_name : string;
  attributes : item
}.

(** What the table service answers to a scan and to the scans that continue
    it: an error; a response without [LastEvaluatedKey]; or a response with
    one, and the answers to the scan that starts after that key.  [Items] is
    optional in a response. *)
Inductive scan_service :=
| ScanRaises (err : string)
| LastPage (items : option (list cluster))
| MorePages (items : option (list cluster)) (last_evaluated_key : string)
            (next : scan_service).

(** The two update expressions the handlers issue:
    ["set epoch_seconds=:e"] and ["set error_state=:e"]. *)
Inductive update_expression :=
| SetEpochSeconds (e : Z)
| SetErrorState (e : bool).

(** The form posted to chat.postMessage. *)
Record json_message := JsonMessage {
  token : string;
  channel : string;
  as_user : string;
  icon_emoji : string;
  username : string;
  text : string
}.

(** Everything a handler does to the outside: log lines, update requests to
    DynamoDB and posts to Slack, in the order issued. *)
Inductive effect :=
| Log (lvl : level) (msg : string)
| Scan (table_name : string) (exclusive_start_key : option string)
| UpdateItem (table_name : string) (key : string) (u : update_expression)
| SlackPost (url : string) (body : json_message).

Record world := MkWorld {
  table : gmap string item;
  journal : list effect
}.

(** What the outside world answers while one request (Recorder) or one loop
    iteration (Evaluator) runs: the readings of [time.time()] (as an integer)
    and of [datetime.now()], and whether the Slack post raises
    [RequestException] and the DynamoDB update raises [ClientError]
    ([Some err], the errors the handlers catch) or succeed.  Each handler
    and each loop iteration makes each of these calls at most once. *)
Record moment := Moment {
  time_time : Z;
  datetime_now : Z;
  post_raises : option string;
  update_item_raises : option string
}.

(** DynamoDB's [update_item] with a [set] expression is an upsert of one
    attribute: the other attribute of an existing row is kept, and a missing
    row is created with the key and that attribute only. *)
Definition apply_update (u : update_expression) (old : option item) : item :=
  match u with
  | SetEpochSeconds e =>
      {| epoch_seconds := Some e; error_state := old ≫= error_state |}
  | SetErrorState e =>
      {| epoch_seconds := old ≫= epoch_seconds; error_state := Some e |}
  end.

Definition upsert (key : string) (u : update_expression)
    (t : gmap string item) : gmap string item :=
  <[key := apply_update u (t !! key)]> t.

(** The monad of handler code: state passing over [world], with Python
    exceptions.  The world reached when an exception is raised is kept: what
    was written and logged before the raise stays written and logged. *)
Definition py (A : Type) : Type := world → result A * world.

Definition ret {A} (a : A) : py A := λ w, (Ok a, w).

Definition bind {A B} (c : py A) (k : A → py B) : py B :=
  λ w, match c w with
       | (Ok a, w') => k a w'
       | (Raise e, w') => (Raise e, w')
       end.

Definition raise {A} (e : exn) : py A := λ w, (Raise e, w).

(** [try: c except <the exceptions h handles>: h e]. *)
Definition try_except {A} (c : py A) (h : exn → option (py A)) : py A :=
  λ w, match c w with
       | (Ok a, w') => (Ok a, w')
       | (Raise e, w') =>
           match h e with
           | Some handler => handler w'
           | None => (Raise e, w')
           end
       end.

Definition emit (e : effect) : py unit :=
  λ w, (Ok tt, {| table := table w; journal := journal w ++ [e] |}).

Definition logger (lvl : level) (msg : string) : py unit := emit (Log lvl msg).

Definition modify_table (f : gmap string item → gmap string item) : py unit :=
  λ w, (Ok tt, {| table := f (table w); journal := journal w |}).

(** [table.update_item(Key={'cluster_name': key}, UpdateExpression=...,
    ReturnValues="UPDATED_NEW")] of boto3: the request is issued; it either
    raises [ClientError] and leaves the table alone, or is applied and the
    new attribute is returned. *)
Definition update_item (m : moment) (table_name key : string)
    (u : update_expression) : py update_expression :=
  bind (emit (UpdateItem table_name key u)) (λ _,
    match update_item_raises m with
    | Some err => raise (ClientError err)
    | None => bind (modify_table (upsert key u)) (λ _, ret u)
    end).

(** [requests.post(url, json_message)] followed by [raise_for_status()]:
    the post is issued; the pair raises [RequestException] or not. *)
Definition requests_post (m : moment) (url : string) (body : json_message)
    : py unit :=
  bind (emit (SlackPost url body)) (λ _,
    match post_raises m with
    | Some err => raise (RequestException err)
    | None => ret tt
    end).

(** [os.environ[key]]. *)
Definition environ_get (os_environ : gmap string string) (key : string)
    : py string :=
  match os_environ !! key with
  | Some value => ret value
  | None => raise (KeyError key)
  end.

(** The loop both modules run when they are loaded:
    [for env_var in REQUIRED_ENVIRONMENT_VARIABLES], log an error and
    [sys.exit(1)] at the first variable that is not in [os.environ]. *)
Fixpoint require_environment_variables (os_environ : gmap string string)
    (required : list string) : py unit :=
  match required with
  | [] => ret tt
  | env_var :: rest =>
      if bool_decide (env_var ∈ dom os_environ) then
        require_environment_variables os_environ rest
      else
        bind (logger ERROR (env_var +:+ " is a required environment variable"))
             (λ _, raise (SystemExit 1))
  end.

(** The requests and posts recorded in a journal. *)
Definition updates (j : list effect) : list (string * update_expression) :=
  omap (λ e, match e with UpdateItem _ k u => Some (k, u) | _ => None end) j.

Definition posts (j : list effect) : list json_message :=
  omap (λ e, match e with SlackPost _ b => Some b | _ => None end) j.

(** The effects issued between an earlier world and a later one. *)
Definition since (w w' : world) : list effect :=
  drop (length (journal w)) (journal w').

End World.

Declare Scope py_scope.
Delimit Scope py_scope with py.
Notation "x <- c ;; k" := (World.bind c (λ x, k))
  (at level 100, c at next level, right associativity) : py_scope.
Notation "c ;; k" := (World.bind c (λ _, k))
  (at level 100, right associativity) : py_scope.

Local Open Scope py_scope.

(** ** api.py: the heartbeat Recorder *)

Module Api.
Import Py World.

(** The module-level settings read from [os.environ]. *)
Record environ := Environ {
  VERIFY_TOKEN : string;
  ENVIRONMENT_NAME : string
}.

(** The Lambda event as API Gateway maps it: the path parameters and the
    query string parameters. *)
Record event := Event {
  method : string;
  path : gmap string string;
  query : gmap string string
}.

(** The dict a handler returns. *)
Record response := Response {
  statusCode : Z;
  body : string
}.

Section Recorder.
Context (cfg : environ).

Definition verify_token (ev : event) : py bool :=
  if match query ev !! "verify_token" with
     | Some tok => String.eqb tok (VERIFY_TOKEN cfg)
     | None => false
     end
  then logger INFO "Successfully verified token" ;; ret true
  else logger ERROR "Couldn't verify token" ;; ret false.

Definition dynamodb_write (m : moment) (table_name cluster_name : string)
    (epoch_seconds : Z) : py update_expression :=
  try_except
    (update_item m table_name cluster_name (SetEpochSeconds epoch_seconds))
    (λ e, match e with
          | ClientError err => Some (
              logger CRITICAL "DynamoDB Update Encountered an Error" ;;
              logger CRITICAL err ;;
              raise (Exception
                "[InternalServerError] DynamoDB Update Encountered an Error"))
          | _ => None
          end).

Definition webhook (m : moment) (ev : event) : py response :=
  ok <- verify_token ev ;;
  if negb ok then
    ret {| statusCode := 400; body := "Wrong verification token" |}
  else
    match path ev !! "cluster_name" with
    | None => raise (KeyError "cluster_name")
    | Some cluster_name =>
        let epoch_seconds := time_time m in
        logger INFO ("Writing record for " +:+ cluster_name +:+
                     " with timestamp " +:+ str epoch_seconds +:+
                     " to DynamoDB") ;;
        dynamodb_write m (ENVIRONMENT_NAME cfg) cluster_name epoch_seconds ;;
        ret {| statusCode := 200; body := str epoch_seconds |}
    end.

End Recorder.

Definition REQUIRED_ENVIRONMENT_VARIABLES : list string :=
  ["ENVIRONMENT_NAME"; "VERIFY_TOKEN"].

(** The statements the module runs when it is loaded, from the check of the
    required variables to the two globals it sets. *)
Definition module_init (os_environ : gmap string string) : py environ :=
  require_environment_variables os_environ REQUIRED_ENVIRONMENT_VARIABLES ;;
  verify_token_value <- environ_get os_environ "VERIFY_TOKEN" ;;
  environment_name <- environ_get os_environ "ENVIRONMENT_NAME" ;;
  ret {| VERIFY_TOKEN := verify_token_value;
         ENVIRONMENT_NAME := environment_name |}.

(** The script run, [if __name__ == "__main__"]: the module is loaded, then
    [webhook] is called on a POST for the cluster "test" that carries the
    configured token.  The result is the dict the script prints. *)
Definition main (os_environ : gmap string string) (m : moment) : py response :=
  cfg <- module_init os_environ ;;
  let post_event :=
    {| method := "POST";
       path := {[ "cluster_name" := "test" ]};
       query := {[ "verify_token" := VERIFY_TOKEN cfg ]} |} in
  webhook cfg m post_event.

End Api.

(** ** checker.py: the liveness Evaluator *)

Module Checker.
Import Py World.

(** The module-level settings read from [os.environ];
    [SCALE_DOWN_CLUSTERS] is the comma-separated variable already split, and
    the empty list when the variable is not set. *)
Record environ := Environ {
  ENVIRONMENT_NAME : string;
  MAX_TIME_SECONDS : string;
  SLACK_CHANNEL : string;
  SLACK_TOKEN : string;
  SCALE_DOWN_CLUSTERS : list string;
  SCALE_UP_CRON : string;
  SCALE_DOWN_CRON : string
}.

(** Code the handler calls but does not define: the built-in [int] on a
    string ([None] when it raises ValueError), and the two entry points of
    the vendored croniter package, with datetimes as seconds on the local
    time line. *)
Record library := Library {
  int : string → option Z;
  croniter_is_valid : string → bool;
  croniter_get_prev : string → Z → Z
}.

Section Evaluator.
Context (lib : library) (cfg : environ).

Definition check_cluster_cron (m : moment) (cluster_name : string) : py bool :=
  if negb (bool_decide (cluster_name ∈ SCALE_DOWN_CLUSTERS cfg)) then ret true
  else if negb (croniter_is_valid lib (SCALE_DOWN_CRON cfg))
          || negb (croniter_is_valid lib (SCALE_UP_CRON cfg)) then
    logger WARNING ("Cron expression invalid. Processing " +:+ cluster_name
                    +:+ " as normal.") ;;
    ret true
  else
    let now := datetime_now m in
    let last_scale_down := croniter_get_prev lib (SCALE_DOWN_CRON cfg) now in
    let last_scale_up := croniter_get_prev lib (SCALE_UP_CRON cfg) now in
    if last_scale_down >? last_scale_up then
      logger INFO ("Cluster " +:+ cluster_name
                   +:+ " is scaled down. Not processing.") ;;
      ret false
    else
      logger INFO ("Cluster " +:+ cluster_name
                   +:+ " is scaled up. Processing as normal.") ;;
      ret true.

(** The [while not done] loop of [dynamodb_scan], by recursion on what the
    service answers. *)
Fixpoint scan_pages (table_name : string) (start_key : option string)
    (svc : scan_service) (dynamodb_records : list cluster)
    : py (list cluster) :=
  emit (Scan table_name start_key) ;;
  match svc with
  | ScanRaises err => raise (ClientError err)
  | LastPage items => ret (dynamodb_records ++ default [] items)
  | MorePages items last_evaluated_key next =>
      scan_pages table_name (Some last_evaluated_key) next
        (dynamodb_records ++ default [] items)
  end.

Definition dynamodb_scan (svc : scan_service) (table_name : string)
    : py (list cluster) :=
  try_except (scan_pages table_name None svc [])
    (λ e, match e with
          | ClientError err => Some (
              logger CRITICAL "DynamoDB Scan Encountered an Error" ;;
              logger CRITICAL err ;;
              raise (SystemExit 1))
          | _ => None
          end).

Definition dynamodb_update (m : moment) (table_name cluster_name : string)
    (error_state : bool) : py unit :=
  try_except
    (update_item m table_name cluster_name (SetErrorState error_state) ;;
     ret tt)
    (λ e, match e with
          | ClientError err => Some (
              logger WARNING "DynamoDB Update Encountered an Error" ;;
              logger WARNING err)
          | _ => None
          end).

Definition slack_text (notification_text : string) (error : bool) : string :=
  if error then
    "*Prometheus Instance Not Responding*" +:+ nl +:+
    "A Prometheus instance has not checked in for over 5 minutes" +:+ nl +:+
    notification_text
  else
    "*Prometheus Instance Recovered*" +:+ nl +:+
    "A Prometheus instances has recovered" +:+ nl +:+
    notification_text.

Definition send_slack_notification (m : moment) (notification_text : string)
    (error : bool) : py unit :=
  let json_message :=
    {| token := SLACK_TOKEN cfg;
       channel := SLACK_CHANNEL cfg;
       as_user := "false";
       icon_emoji := ":computer:";
       username := "Prometheus Monitor";
       text := slack_text notification_text error |} in
  try_except
    (requests_post m "https://slack.com/api/chat.postMessage" json_message)
    (λ e, match e with
          | RequestException err => Some (
              logger ERROR "Post to Slack API encountered an error" ;;
              logger ERROR err)
          | _ => None
          end).

(** The f-string both branches log and send. *)
Definition time_since_text (cluster_name : string) (time_since_check_in : Z)
    : string :=
  "Time since " +:+ cluster_name +:+ " checked in is " +:+
  str time_since_check_in +:+ " seconds".

(** The body of the [for cluster in clusters] loop; [continue] is the
    early [ret tt]. *)
Definition check_iteration (m : moment) (c : cluster) : py unit :=
  let now := time_time m in
  let cluster_name := cluster_name c in
  process <- check_cluster_cron m cluster_name ;;
  if negb process then ret tt
  else
    match epoch_seconds (attributes c) with
    | None => raise (KeyError "epoch_seconds")
    | Some last_check_in =>
        let time_since_check_in := now - last_check_in in
        match int lib (MAX_TIME_SECONDS cfg) with
        | None => raise (ValueError (MAX_TIME_SECONDS cfg))
        | Some max_time_seconds =>
            if time_since_check_in >? max_time_seconds then
              logger ERROR (time_since_text cluster_name time_since_check_in) ;;
              logger INFO ("Sending alert Slack notification for "
                           +:+ cluster_name) ;;
              send_slack_notification m
                (time_since_text cluster_name time_since_check_in) true ;;
              dynamodb_update m (ENVIRONMENT_NAME cfg) cluster_name true
            else
              logger INFO (time_since_text cluster_name time_since_check_in) ;;
              (if match error_state (attributes c) with
                  | Some b => b
                  | None => false
                  end
               then
                 logger INFO ("Sending recovery Slack notification for "
                              +:+ cluster_name) ;;
                 send_slack_notification m
                   (time_since_text cluster_name time_since_check_in) false
               else ret tt) ;;
              dynamodb_update m (ENVIRONMENT_NAME cfg) cluster_name false
        end
    end.

(** The [for] loop: the [i]-th iteration runs at the moment [env i]. *)
Fixpoint check_loop (env : nat → moment) (i : nat) (clusters : list cluster)
    : py unit :=
  match clusters with
  | [] => ret tt
  | c :: rest => check_iteration (env i) c ;; check_loop env (S i) rest
  end.

Definition check (svc : scan_service) (env : nat → moment) : py unit :=
  clusters <- dynamodb_scan svc (ENVIRONMENT_NAME cfg) ;;
  check_loop env 0 clusters.

End Evaluator.

Definition REQUIRED_ENVIRONMENT_VARIABLES : list string :=
  ["ENVIRONMENT_NAME"; "MAX_TIME_SECONDS"; "SLACK_CHANNEL"; "SLACK_TOKEN"].

(** The statements the module runs when it is loaded: the check of the
    required variables, the four globals read from them, and the three
    maintenance-window globals, which keep their initial values unless
    SCALE_DOWN_CLUSTERS is set. *)
Definition module_init (os_environ : gmap string string) : py environ :=
  require_environment_variables os_environ REQUIRED_ENVIRONMENT_VARIABLES ;;
  environment_name <- environ_get os_environ "ENVIRONMENT_NAME" ;;
  max_time_seconds <- environ_get os_environ "MAX_TIME_SECONDS" ;;
  slack_channel <- environ_get os_environ "SLACK_CHANNEL" ;;
  slack_token <- environ_get os_environ "SLACK_TOKEN" ;;
  if bool_decide ("SCALE_DOWN_CLUSTERS" ∈ dom os_environ) then
    if negb (bool_decide ("SCALE_UP_CRON" ∈ dom os_environ)) then
      logger ERROR ("SCALE_UP_CRON is a required environment variable " +:+
                    "if SCALED_DOWN_CLUSTERS set") ;;
      raise (SystemExit 1)
    else if negb (bool_decide ("SCALE_DOWN_CRON" ∈ dom os_environ)) then
      logger ERROR ("SCALE_DOWN_CRON is a required environment variable " +:+
                    "if SCALED_DOWN_CLUSTERS set") ;;
      raise (SystemExit 1)
    else
      scale_down_clusters <- environ_get os_environ "SCALE_DOWN_CLUSTERS" ;;
      scale_up_cron <- environ_get os_environ "SCALE_UP_CRON" ;;
      scale_down_cron <- environ_get os_environ "SCALE_DOWN_CRON" ;;
      ret {| ENVIRONMENT_NAME := environment_name;
             MAX_TIME_SECONDS := max_time_seconds;
             SLACK_CHANNEL := slack_channel;
             SLACK_TOKEN := slack_token;
             SCALE_DOWN_CLUSTERS := [] ++ split "," scale_down_clusters;
             SCALE_UP_CRON := scale_up_cron;
             SCALE_DOWN_CRON := scale_down_cron |}
  else
    ret {| ENVIRONMENT_NAME := environment_name;
           MAX_TIME_SECONDS := max_time_seconds;
           SLACK_CHANNEL := slack_channel;
           SLACK_TOKEN := slack_token;
           SCALE_DOWN_CLUSTERS := [];
           SCALE_UP_CRON := "";
           SCALE_DOWN_CRON := "" |}.

(** The script run, [if __name__ == "__main__"]: the module is loaded, then
    [check(None, None)] runs one pass. *)
Definition main (lib : library) (os_environ : gmap string string)
    (svc : scan_service) (env : nat → moment) : py unit :=
  cfg <- module_init os_environ ;;
  check lib cfg svc env.

End Checker.

(** ** A concrete deployment, used to run the handlers on explicit inputs *)

Module Scenario.
Import Py World.

(** A two-entry schedule oracle standing in for croniter: ["0 20 * * *"]
    fires daily at 20:00 and ["0 6 * * *"] daily at 06:00; every other
    expression is invalid.  [daily offset t] is the latest firing strictly
    before [t]. *)
Definition daily (offset t : Z) : Z := (t - 1 - offset) / 86400 * 86400 + offset.

Definition cron_offset (e : string) : option Z :=
  if String.eqb e "0 20 * * *" then Some 72000
  else if String.eqb e "0 6 * * *" then Some 21600
  else None.

Definition lib : Checker.library := {|
  Checker.int := λ s, Z.of_int <$> NilZero.int_of_string s;
  Checker.croniter_is_valid := λ e, bool_decide (is_Some (cron_offset e));
  Checker.croniter_get_prev := λ e t, daily (default 0 (cron_offset e)) t
|}.

Definition checker_cfg : Checker.environ := {|
  Checker.ENVIRONMENT_NAME := "prod";
  Checker.MAX_TIME_SECONDS := "300";
  Checker.SLACK_CHANNEL := "#ops";
  Checker.SLACK_TOKEN := "xoxb";
  Checker.SCALE_DOWN_CLUSTERS := ["dev"];
  Checker.SCALE_UP_CRON := "0 6 * * *";
  Checker.SCALE_DOWN_CRON := "0 20 * * *"
|}.

(** The same deployment with a scale-up expression croniter rejects. *)
Definition broken_cron_cfg : Checker.environ := {|
  Checker.ENVIRONMENT_NAME := "prod";
  Checker.MAX_TIME_SECONDS := "300";
  Checker.SLACK_CHANNEL := "#ops";
  Checker.SLACK_TOKEN := "xoxb";
  Checker.SCALE_DOWN_CLUSTERS := ["dev"];
  Checker.SCALE_UP_CRON := "every morning";
  Checker.SCALE_DOWN_CRON := "0 20 * * *"
|}.

(** The same deployment with a threshold of one hour. *)
Definition hourly_cfg : Checker.environ := {|
  Checker.ENVIRONMENT_NAME := "prod";
  Checker.MAX_TIME_SECONDS := "3600";
  Checker.SLACK_CHANNEL := "#ops";
  Checker.SLACK_TOKEN := "xoxb";
  Checker.SCALE_DOWN_CLUSTERS := ["dev"];
  Checker.SCALE_UP_CRON := "0 6 * * *";
  Checker.SCALE_DOWN_CRON := "0 20 * * *"
|}.

Definition api_cfg : Api.environ := {|
  Api.VERIFY_TOKEN := "s3cret";
  Api.ENVIRONMENT_NAME := "prod"
|}.

Definition post_event (tok : option string) : Api.event := {|
  Api.method := "POST";
  Api.path := {[ "cluster_name" := "test" ]};
  Api.query := match tok with
               | Some t => {[ "verify_token" := t ]}
               | None => ∅
               end
|}.

(** Moments: everything works at noon; the table service is down; the table
    service and Slack are both down; the evening, inside the maintenance
    window. *)
Definition calm (now : Z) : moment := {|
  time_time := now; datetime_now := 43200;
  post_raises := None; update_item_raises := None
|}.

Definition table_down (now : Z) : moment := {|
  time_time := now; datetime_now := 43200;
  post_raises := None;
  update_item_raises := Some "ProvisionedThroughputExceededException"
|}.

Definition all_down (now : Z) : moment := {|
  time_time := now; datetime_now := 43200;
  post_raises := Some "503 Server Error";
  update_item_raises := Some "ProvisionedThroughputExceededException"
|}.

Definition evening (now : Z) : moment := {|
  time_time := now; datetime_now := 79200;
  post_raises := None; update_item_raises := None
|}.

Definition row (last_seen : Z) (alert : option bool) : item :=
  {| epoch_seconds := Some last_seen; error_state := alert |}.

Definition registry : gmap string item :=
  {[ "a" := row 880 (Some false); "b" := row 600 (Some false) ]}.

Definition start : world := {| table := registry; journal := [] |}.

(** The scan of [registry], in one page; and a later scan, after "b" was
    alerted on and has checked in again. *)
Definition a_fresh : cluster := Cluster "a" (row 880 (Some false)).
Definition b_stale : cluster := Cluster "b" (row 600 (Some false)).
Definition b_back : cluster := Cluster "b" (row 940 (Some true)).
Definition dev_stale : cluster := Cluster "dev" (row 0 None).

Definition first_scan : scan_service := LastPage (Some [a_fresh; b_stale]).
Definition later_scan : scan_service := LastPage (Some [a_fresh; b_back]).
Definition dev_scan : scan_service := LastPage (Some [dev_stale; b_stale]).

(** The world in which the loop of a pass from [start] comes to its first
    record. *)
Definition scanned : world := {|
  table := registry;
  journal := [Scan "prod" None]
|}.

(** The world in which the loop of a pass from [start] comes to its second
    record, after "a" was found fresh. *)
Definition after_a : world := {|
  table := registry;
  journal := [Scan "prod" None;
              Log INFO "Time since a checked in is 120 seconds";
              UpdateItem "prod" "a" (SetErrorState false)]
|}.

End Scenario.

(** ** Summaries of runs

    Names for what a run of the handler code leaves behind: the effects and
    writes of an update, of a post, of one loop iteration.  The facts below
    relate each of them to the code it summarises. *)

Section Summaries.
Import Py World Checker.
Context (lib : library) (cfg : environ).

(** A world with some more effects appended to its journal. *)
Definition extend (w : world) (es : list effect) : world :=
  {| table := table w; journal := journal w ++ es |}.

(** The request and log lines of one [dynamodb_update], according to what
    the table service answers. *)
Definition update_outcome (m : moment) (table_name name : string) (b : bool)
    : list effect :=
  UpdateItem table_name name (SetErrorState b) ::
  match update_item_raises m with
  | Some err => [Log WARNING "DynamoDB Update Encountered an Error";
                 Log WARNING err]
  | None => []
  end.

(** The table one [dynamodb_update] leaves: a refused update changes
    nothing. *)
Definition written (m : moment) (name : string) (b : bool)
    (t : gmap string item) : gmap string item :=
  match update_item_raises m with
  | Some _ => t
  | None => upsert name (SetErrorState b) t
  end.

(** The message [send_slack_notification] posts. *)
Definition notification (text : string) (error : bool) : json_message :=
  {| token := SLACK_TOKEN cfg;
     channel := SLACK_CHANNEL cfg;
     as_user := "false";
     icon_emoji := ":computer:";
     username := "Prometheus Monitor";
     World.text := slack_text text error |}.

(** The post and log lines of one [send_slack_notification]. *)
Definition post_outcome (m : moment) (text : string) (error : bool)
    : list effect :=
  SlackPost "https://slack.com/api/chat.postMessage" (notification text error)
  :: match post_raises m with
     | Some err => [Log ERROR "Post to Slack API encountered an error";
                    Log ERROR err]
     | None => []
     end.

(** What [check_cluster_cron] logs and what it returns, read off a run in
    the empty world. *)
Definition cron_log (m : moment) (name : string) : list effect :=
  journal (check_cluster_cron lib cfg m name {| table := ∅; journal := [] |}).2.

Definition cron_verdict (m : moment) (name : string) : bool :=
  match (check_cluster_cron lib cfg m name {| table := ∅; journal := [] |}).1 with
  | Ok b => b
  | Raise _ => true
  end.

(** The prior alert state the loop body reads: an absent [error_state]
    counts as false. *)
Definition prior_alert (c : cluster) : bool :=
  match error_state (attributes c) with
  | Some b => b
  | None => false
  end.

(** The effects of the two branches of the staleness test. *)
Definition alert_effects (m : moment) (name : string) (since_check_in : Z)
    : list effect :=
  [Log ERROR (time_since_text name since_check_in);
   Log INFO ("Sending alert Slack notification for " +:+ name)]
  ++ post_outcome m (time_since_text name since_check_in) true
  ++ update_outcome m (ENVIRONMENT_NAME cfg) name true.

Definition fresh_effects (m : moment) (name : string) (since_check_in : Z)
    (prior : bool) : list effect :=
  [Log INFO (time_since_text name since_check_in)]
  ++ (if prior then
        Log INFO ("Sending recovery Slack notification for " +:+ name)
        :: post_outcome m (time_since_text name since_check_in) false
      else [])
  ++ update_outcome m (ENVIRONMENT_NAME cfg) name false.

(** The result, the effects and the committed write of one loop iteration,
    read off a run of the loop body in the empty world. *)
Definition nowhere : world := {| table := ∅; journal := [] |}.

Definition iteration_result (m : moment) (c : cluster) : result unit :=
  (check_iteration lib cfg m c nowhere).1.

Definition iteration_effects (m : moment) (c : cluster) : list effect :=
  journal (check_iteration lib cfg m c nowhere).2.

Definition iteration_write (m : moment) (c : cluster) : option bool :=
  (table (check_iteration lib cfg m c nowhere).2 !! cluster_name c)
  ≫= error_state.

(** Committing the write of an iteration, if there is one. *)
Definition commit (name : string) (wr : option bool) (t : gmap string item)
    : gmap string item :=
  match wr with
  | Some b => upsert name (SetErrorState b) t
  | None => t
  end.

(** [reaches svc env w l1 c l2 w1]: the pass started in [w] scanned the
    records [l1 ++ c :: l2] and its loop came to [c], the record at position
    [length l1], in the world [w1]. *)
Definition reaches (svc : scan_service) (env : nat → moment) (w : world)
    (l1 : list cluster) (c : cluster) (l2 : list cluster) (w1 : world)
    : Prop :=
  ∃ ws, dynamodb_scan svc (ENVIRONMENT_NAME cfg) w
        = (Ok (l1 ++ c :: l2), ws)
        ∧ check_loop lib cfg env 0 l1 ws = (Ok tt, w1).

(** The settings of a deployment that does not set SCALE_DOWN_CLUSTERS:
    the three maintenance-window globals keep their initial values. *)
Definition without_maintenance : environ := {|
  ENVIRONMENT_NAME := ENVIRONMENT_NAME cfg;
  MAX_TIME_SECONDS := MAX_TIME_SECONDS cfg;
  SLACK_CHANNEL := SLACK_CHANNEL cfg;
  SLACK_TOKEN := SLACK_TOKEN cfg;
  SCALE_DOWN_CLUSTERS := [];
  SCALE_UP_CRON := "";
  SCALE_DOWN_CRON := ""
|}.

(** The writes a pass commits, in scan order, when the cluster named [n] is
    processed at the moment [at_ n]. *)
Definition commits_at (at_ : string → moment) (l : list cluster)
    (t : gmap string item) : gmap string item :=
  foldl (λ t c,
           commit (cluster_name c)
             (iteration_write (at_ (cluster_name c)) c) t) t l.

(** What a scan gathers, whether it fails, and the requests it issues, read
    off the answers of the table service: the items of the pages up to the
    last page or the first error, the error if there is one, and one [Scan]
    per page, each starting after the key the page before it returned. *)
Fixpoint scan_items (svc : scan_service) : list cluster :=
  match svc with
  | ScanRaises _ => []
  | LastPage items => default [] items
  | MorePages items _ next => default [] items ++ scan_items next
  end.

Fixpoint scan_error (svc : scan_service) : option string :=
  match svc with
  | ScanRaises err => Some err
  | LastPage _ => None
  | MorePages _ _ next => scan_error next
  end.

Fixpoint scan_requests (table_name : string) (start_key : option string)
    (svc : scan_service) : list effect :=
  Scan table_name start_key ::
  match svc with
  | MorePages _ last_evaluated_key next =>
      scan_requests table_name (Some last_evaluated_key) next
  | _ => []
  end.

(** The effects of the loop over [l] from iteration [i] on: those of each
    iteration in turn, up to and including the first one that raises. *)
Fixpoint pass_effects (env : nat → moment) (i : nat) (l : list cluster)
    : list effect :=
  match l with
  | [] => []
  | c :: rest =>
      iteration_effects (env i) c ++
      match iteration_result (env i) c with
      | Ok _ => pass_effects env (S i) rest
      | Raise _ => []
      end
  end.

(** A request of the Evaluator that is addressed as configured: a scan or an
    update of the configured table, the update setting [error_state] of one
    of the clusters [names]; a post to chat.postMessage with the configured
    token and channel.  Log lines are not requests. *)
Definition addressed (names : list string) (e : effect) : Prop :=
  match e with
  | Log _ _ => True
  | Scan table_name _ => table_name = ENVIRONMENT_NAME cfg
  | UpdateItem table_name key u =>
      table_name = ENVIRONMENT_NAME cfg ∧ key ∈ names
      ∧ ∃ b, u = SetErrorState b
  | SlackPost url body =>
      url = "https://slack.com/api/chat.postMessage"
      ∧ token body = SLACK_TOKEN cfg ∧ channel body = SLACK_CHANNEL cfg
      ∧ username body = "Prometheus Monitor"
  end.

(** A table in which every row carries [epoch_seconds]. *)
Definition stamped (t : gmap string item) : Prop :=
  ∀ k row, t !! k = Some row → is_Some (epoch_seconds row).

End Summaries.

(** ** Facts about the monad and the journal *)

Section MonadFacts.
Import Py World.

Lemma extend_nil w : extend w [] = w.
Proof. destruct w; unfold extend; simpl. by rewrite app_nil_r. Qed.

Lemma extend_extend w es es' : extend (extend w es) es' = extend w (es ++ es').
Proof. unfold extend; simpl. by rewrite app_assoc. Qed.

Lemma since_extend w t es :
  since w {| table := t; journal := journal w ++ es |} = es.
Proof. unfold since; simpl. by rewrite drop_app_length. Qed.

Lemma since_extend_world w es : since w (extend w es) = es.
Proof. apply since_extend. Qed.

Lemma since_refl w : since w w = [].
Proof. unfold since. by rewrite drop_all. Qed.

Lemma updates_app j1 j2 : updates (j1 ++ j2) = updates j1 ++ updates j2.
Proof. unfold updates. apply omap_app. Qed.

Lemma posts_app j1 j2 : posts (j1 ++ j2) = posts j1 ++ posts j2.
Proof. unfold posts. apply omap_app. Qed.

Lemma emit_run e w : emit e w = (Ok tt, extend w [e]).
Proof. reflexivity. Qed.

Lemma logger_run lvl msg w : logger lvl msg w = (Ok tt, extend w [Log lvl msg]).
Proof. reflexivity. Qed.

(** The upsert of one attribute leaves the other attribute of every row, and
    every other row, as they were. *)
Lemma upsert_lookup_ne k k' u (t : gmap string item) :
  k ≠ k' → upsert k u t !! k' = t !! k'.
Proof. intros Hne. unfold upsert. by rewrite lookup_insert_ne. Qed.

Lemma upsert_epoch_error_state k e (t : gmap string item) k' :
  (upsert k (SetEpochSeconds e) t !! k') ≫= error_state
  = (t !! k') ≫= error_state.
Proof.
  unfold upsert. destruct (decide (k = k')) as [->|Hne].
  - rewrite lookup_insert_eq. simpl. by destruct (t !! k').
  - by rewrite lookup_insert_ne.
Qed.

Lemma upsert_error_state_epoch k b (t : gmap string item) k' :
  (upsert k (SetErrorState b) t !! k') ≫= epoch_seconds
  = (t !! k') ≫= epoch_seconds.
Proof.
  unfold upsert. destruct (decide (k = k')) as [->|Hne].
  - rewrite lookup_insert_eq. simpl. by destruct (t !! k').
  - by rewrite lookup_insert_ne.
Qed.

Lemma upsert_error_state_lookup k b (t : gmap string item) :
  (upsert k (SetErrorState b) t !! k) ≫= error_state = Some b.
Proof. unfold upsert. by rewrite lookup_insert_eq. Qed.

Lemma upsert_epoch_lookup k e (t : gmap string item) :
  (upsert k (SetEpochSeconds e) t !! k) ≫= epoch_seconds = Some e.
Proof. unfold upsert. by rewrite lookup_insert_eq. Qed.

(** [str] prints the decimal numeral: reading it back gives the number. *)
Lemma str_decimal n : Z.of_int <$> NilZero.int_of_string (str n) = Some n.
Proof.
  unfold str. rewrite NilZero.isi.
  - simpl. f_equal. apply DecimalZ.of_to.
  - destruct n; simpl; try discriminate.
    intros [= H]. by apply DecimalPos.Unsigned.to_uint_nonnil in H.
  - destruct n; simpl; try discriminate.
    intros [= H]. by apply DecimalPos.Unsigned.to_uint_nonnil in H.
Qed.

End MonadFacts.

(** ** The Recorder *)

Section RecorderFacts.
Import Py World Api.
Context (cfg : Api.environ).

Lemma verify_token_accepts ev w :
  query ev !! "verify_token" = Some (VERIFY_TOKEN cfg) →
  verify_token cfg ev w
  = (Ok true, extend w [Log INFO "Successfully verified token"]).
Proof.
  intros Htok. unfold verify_token. rewrite Htok, String.eqb_refl.
  reflexivity.
Qed.

Lemma verify_token_rejects ev w :
  query ev !! "verify_token" ≠ Some (VERIFY_TOKEN cfg) →
  verify_token cfg ev w
  = (Ok false, extend w [Log ERROR "Couldn't verify token"]).
Proof.
  intros Htok. unfold verify_token.
  destruct (query ev !! "verify_token") as [tok|] eqn:Hq; [|reflexivity].
  destruct (String.eqb_spec tok (VERIFY_TOKEN cfg)) as [->|Hne];
    [congruence | reflexivity].
Qed.

(** [verify_token] never raises and never touches the table. *)
Lemma verify_token_total ev w :
  ∃ b es, verify_token cfg ev w = (Ok b, extend w es) ∧ updates es = [].
Proof.
  unfold verify_token.
  destruct (match query ev !! "verify_token" with
            | Some tok => String.eqb tok (VERIFY_TOKEN cfg)
            | None => false
            end); eexists _, _; split; reflexivity.
Qed.

Lemma dynamodb_write_ok m tn name e w :
  update_item_raises m = None →
  dynamodb_write m tn name e w
  = (Ok (SetEpochSeconds e),
     {| table := upsert name (SetEpochSeconds e) (table w);
        journal := journal w ++ [UpdateItem tn name (SetEpochSeconds e)] |}).
Proof.
  intros Hok. unfold dynamodb_write, try_except, update_item, bind.
  simpl. rewrite Hok. reflexivity.
Qed.

Lemma dynamodb_write_fails m tn name e w err :
  update_item_raises m = Some err →
  dynamodb_write m tn name e w
  = (Raise (Exception
       "[InternalServerError] DynamoDB Update Encountered an Error"),
     extend w [UpdateItem tn name (SetEpochSeconds e);
               Log CRITICAL "DynamoDB Update Encountered an Error";
               Log CRITICAL err]).
Proof.
  intros Hko. unfold dynamodb_write, try_except, update_item, bind.
  simpl. rewrite Hko. simpl. unfold extend; simpl.
  by rewrite <- !app_assoc.
Qed.

(** The table after [dynamodb_write], whatever the service answers: the
    epoch upsert or nothing. *)
Lemma dynamodb_write_table m tn name e w :
  table (dynamodb_write m tn name e w).2
  = match update_item_raises m with
    | None => upsert name (SetEpochSeconds e) (table w)
    | Some _ => table w
    end.
Proof.
  destruct (update_item_raises m) as [err|] eqn:Hr.
  - by rewrite (dynamodb_write_fails _ _ _ _ _ err).
  - by rewrite dynamodb_write_ok.
Qed.

(** The table after [webhook], in every case. *)
Lemma webhook_table m ev w :
  table (webhook cfg m ev w).2
  = if bool_decide (query ev !! "verify_token" = Some (VERIFY_TOKEN cfg)) then
      match path ev !! "cluster_name", update_item_raises m with
      | Some name, None =>
          upsert name (SetEpochSeconds (time_time m)) (table w)
      | _, _ => table w
      end
    else table w.
Proof.
  unfold webhook. unfold bind at 1. case_bool_decide as Htok.
  - rewrite verify_token_accepts by done. cbn [negb].
    destruct (path ev !! "cluster_name") as [name|]; [|done].
    unfold bind. rewrite logger_run.
    match goal with
    | |- context [dynamodb_write ?m ?tn ?n ?e ?w0] =>
        pose proof (dynamodb_write_table m tn n e w0) as Ht;
        destruct (dynamodb_write m tn n e w0) as [[u|e'] w']
    end; simpl in Ht |- *; rewrite Ht; by destruct (update_item_raises m).
  - by rewrite verify_token_rejects.
Qed.

End RecorderFacts.

Section RecorderClaims.
Import Py World Api.

(** What [webhook] does once the token is accepted and the update succeeds. *)
Lemma webhook_accepts_run cfg m ev w name :
  query ev !! "verify_token" = Some (VERIFY_TOKEN cfg) →
  path ev !! "cluster_name" = Some name →
  update_item_raises m = None →
  webhook cfg m ev w
  = (Ok {| statusCode := 200; body := str (time_time m) |},
     {| table := upsert name (SetEpochSeconds (time_time m)) (table w);
        journal := journal w ++
          [Log INFO "Successfully verified token";
           Log INFO ("Writing record for " +:+ name +:+ " with timestamp "
                     +:+ str (time_time m) +:+ " to DynamoDB");
           UpdateItem (ENVIRONMENT_NAME cfg) name
             (SetEpochSeconds (time_time m))] |}).
Proof.
  intros Htok Hpath Hok. unfold webhook, bind.
  rewrite verify_token_accepts by done. cbn [negb]. rewrite Hpath.
  rewrite logger_run, dynamodb_write_ok by done.
  unfold ret, extend. simpl. by rewrite <- !app_assoc.
Qed.

(** C5 (as amended).  For every call to record with the correct shared token
    whose registry write succeeds, record takes now from the clock, issues
    exactly one registry write, which sets last_seen of the given cluster to
    now (creating the row when it is absent), and returns status 200 with
    the decimal string of now as body. *)
Theorem webhook_records_heartbeat cfg m ev w name :
  query ev !! "verify_token" = Some (VERIFY_TOKEN cfg) →
  path ev !! "cluster_name" = Some name →
  update_item_raises m = None →
  let now := time_time m in
  let out := webhook cfg m ev w in
  out.1 = Ok {| statusCode := 200; body := str now |}
  ∧ updates (since w out.2) = [(name, SetEpochSeconds now)]
  ∧ table out.2 = upsert name (SetEpochSeconds now) (table w)
  ∧ (table out.2 !! name) ≫= epoch_seconds = Some now
  ∧ (table w !! name = None →
     table out.2 !! name
     = Some {| epoch_seconds := Some now; error_state := None |})
  ∧ Z.of_int <$> NilZero.int_of_string (str now) = Some now.
Proof.
  intros Htok Hpath Hok now out. subst out.
  rewrite (webhook_accepts_run _ _ _ _ name) by done. simpl.
  split; [done|]. split; [by rewrite since_extend|]. split; [done|].
  split; [apply upsert_epoch_lookup|]. split; [|apply str_decimal].
  intros Habs. unfold upsert. rewrite lookup_insert_eq, Habs. done.
Qed.

Lemma webhook_records_heartbeat_witness :
  let out := webhook Scenario.api_cfg (Scenario.calm 1700000000)
               (Scenario.post_event (Some "s3cret")) Scenario.start in
  out.1 = Ok {| statusCode := 200; body := "1700000000" |}
  ∧ (table out.2 !! "test") ≫= epoch_seconds = Some 1700000000.
Proof.
  pose proof (webhook_records_heartbeat Scenario.api_cfg
    (Scenario.calm 1700000000) (Scenario.post_event (Some "s3cret"))
    Scenario.start "test" eq_refl eq_refl eq_refl) as (H1 & _ & _ & H4 & _).
  split; [exact H1 | exact H4].
Defined.

(** C5 (as stated) fails when the table service refuses the update: the token
    is correct and the cluster name is given, yet [webhook] raises the
    internal-server-error exception instead of returning status 200, and
    last_seen is not set. *)
Lemma webhook_storage_failure_counterexample :
  let ev := Scenario.post_event (Some "s3cret") in
  let out := webhook Scenario.api_cfg (Scenario.table_down 1700000000) ev
               Scenario.start in
  query ev !! "verify_token" = Some (VERIFY_TOKEN Scenario.api_cfg)
  ∧ path ev !! "cluster_name" = Some "test"
  ∧ out.1 = Raise (Exception
      "[InternalServerError] DynamoDB Update Encountered an Error")
  ∧ out.1 ≠ Ok {| statusCode := 200; body := str 1700000000 |}
  ∧ table out.2 !! "test" = None.
Proof. vm_compute. repeat split; congruence. Qed.

(** C6.  A call whose query carries another token than the configured secret,
    or no token at all, is answered with status 400; no update request is
    issued and the registry is the same before and after the call. *)
Theorem webhook_unauthorized cfg m ev w :
  query ev !! "verify_token" ≠ Some (VERIFY_TOKEN cfg) →
  let out := webhook cfg m ev w in
  out.1 = Ok {| statusCode := 400; body := "Wrong verification token" |}
  ∧ table out.2 = table w
  ∧ updates (since w out.2) = []
  ∧ since w out.2 = [Log ERROR "Couldn't verify token"].
Proof.
  intros Htok out. subst out. unfold webhook, bind.
  rewrite verify_token_rejects by done. cbn [negb fst snd].
  unfold ret. cbn [fst snd]. by rewrite since_extend_world.
Qed.

Lemma webhook_unauthorized_witness :
  let wrong := webhook Scenario.api_cfg (Scenario.calm 1700000000)
                 (Scenario.post_event (Some "guess")) Scenario.start in
  let missing := webhook Scenario.api_cfg (Scenario.calm 1700000000)
                   (Scenario.post_event None) Scenario.start in
  (statusCode <$> (match wrong.1 with Ok r => Some r | Raise _ => None end)
   = Some 400 ∧ table wrong.2 = Scenario.registry)
  ∧ (statusCode <$> (match missing.1 with Ok r => Some r | Raise _ => None end)
     = Some 400 ∧ table missing.2 = Scenario.registry).
Proof.
  split.
  - destruct (webhook_unauthorized Scenario.api_cfg (Scenario.calm 1700000000)
      (Scenario.post_event (Some "guess")) Scenario.start) as (H1 & H2 & _).
    { vm_compute. congruence. }
    split; [by rewrite H1 | exact H2].
  - destruct (webhook_unauthorized Scenario.api_cfg (Scenario.calm 1700000000)
      (Scenario.post_event None) Scenario.start) as (H1 & H2 & _).
    { vm_compute. congruence. }
    split; [by rewrite H1 | exact H2].
Defined.

End RecorderClaims.

(** ** The Evaluator: what each function does to the world *)

Section EvaluatorFacts.
Import Py World Checker.
Context (lib : library) (cfg : environ).

Local Abbreviation notification := (notification cfg).
Local Abbreviation post_outcome := (post_outcome cfg).
Local Abbreviation alert_effects := (alert_effects cfg).
Local Abbreviation fresh_effects := (fresh_effects cfg).
Local Abbreviation without_maintenance := (without_maintenance cfg).
Local Abbreviation cron_log := (cron_log lib cfg).
Local Abbreviation cron_verdict := (cron_verdict lib cfg).
Local Abbreviation iteration_result := (iteration_result lib cfg).
Local Abbreviation iteration_effects := (iteration_effects lib cfg).
Local Abbreviation iteration_write := (iteration_write lib cfg).
Local Abbreviation reaches := (reaches lib cfg).

Ltac run :=
  cbv [bind ret raise try_except emit logger modify_table update_item
       requests_post extend];
  simpl; rewrite <- ?app_assoc; simpl; try reflexivity.

Lemma dynamodb_update_run m tn name b w :
  dynamodb_update m tn name b w
  = (Ok tt, {| table := written m name b (table w);
               journal := journal w ++ update_outcome m tn name b |}).
Proof.
  unfold dynamodb_update, update_item, update_outcome, written.
  destruct (update_item_raises m) as [err|] eqn:Hr; run; rewrite Hr; run.
Qed.

Lemma send_slack_notification_run m text error w :
  send_slack_notification cfg m text error w
  = (Ok tt, extend w (post_outcome m text error)).
Proof.
  unfold send_slack_notification, requests_post, post_outcome, notification.
  destruct (post_raises m) as [err|] eqn:Hr; run; rewrite Hr; run.
Qed.

Lemma updates_update_outcome m tn name b :
  updates (update_outcome m tn name b) = [(name, SetErrorState b)].
Proof. unfold update_outcome. by destruct (update_item_raises m). Qed.

Lemma posts_update_outcome m tn name b : posts (update_outcome m tn name b) = [].
Proof. unfold update_outcome. by destruct (update_item_raises m). Qed.

Lemma updates_post_outcome m text error : updates (post_outcome m text error) = [].
Proof. unfold post_outcome. by destruct (post_raises m). Qed.

Lemma posts_post_outcome m text error :
  posts (post_outcome m text error) = [notification text error].
Proof. unfold post_outcome. by destruct (post_raises m). Qed.

Lemma check_cluster_cron_run m name w :
  check_cluster_cron lib cfg m name w
  = (Ok (cron_verdict m name), extend w (cron_log m name)).
Proof.
  unfold cron_verdict, cron_log, check_cluster_cron.
  destruct (negb (bool_decide (name ∈ SCALE_DOWN_CLUSTERS cfg))).
  { destruct w. run. by rewrite app_nil_r. }
  destruct (negb (croniter_is_valid lib (SCALE_DOWN_CRON cfg))
            || negb (croniter_is_valid lib (SCALE_UP_CRON cfg))); [run|].
  cbv zeta.
  destruct (croniter_get_prev lib (SCALE_DOWN_CRON cfg) (datetime_now m)
            >? croniter_get_prev lib (SCALE_UP_CRON cfg) (datetime_now m));
    run.
Qed.

Lemma cron_log_quiet m name :
  updates (cron_log m name) = [] ∧ posts (cron_log m name) = [].
Proof.
  unfold cron_log, check_cluster_cron.
  destruct (negb (bool_decide (name ∈ SCALE_DOWN_CLUSTERS cfg))); [done|].
  destruct (negb (croniter_is_valid lib (SCALE_DOWN_CRON cfg))
            || negb (croniter_is_valid lib (SCALE_UP_CRON cfg))); [done|].
  cbv zeta.
  by destruct (croniter_get_prev lib (SCALE_DOWN_CRON cfg) (datetime_now m)
               >? croniter_get_prev lib (SCALE_UP_CRON cfg) (datetime_now m)).
Qed.

(** The four ways through [check_cluster_cron]. *)
Lemma cron_outside_group m name :
  name ∉ SCALE_DOWN_CLUSTERS cfg →
  cron_verdict m name = true ∧ cron_log m name = [].
Proof.
  intros Hout. unfold cron_verdict, cron_log, check_cluster_cron.
  by rewrite bool_decide_eq_false_2.
Qed.

Lemma cron_invalid_expression m name :
  name ∈ SCALE_DOWN_CLUSTERS cfg →
  croniter_is_valid lib (SCALE_DOWN_CRON cfg) = false
  ∨ croniter_is_valid lib (SCALE_UP_CRON cfg) = false →
  cron_verdict m name = true
  ∧ cron_log m name
    = [Log WARNING ("Cron expression invalid. Processing " +:+ name
                    +:+ " as normal.")].
Proof.
  intros Hin Hbad. unfold cron_verdict, cron_log, check_cluster_cron.
  rewrite bool_decide_eq_true_2 by done. cbn [negb].
  replace (negb (croniter_is_valid lib (SCALE_DOWN_CRON cfg))
           || negb (croniter_is_valid lib (SCALE_UP_CRON cfg))) with true.
  - done.
  - destruct Hbad as [-> | ->]; [done | by rewrite orb_true_r].
Qed.

Lemma cron_scaled_down m name :
  name ∈ SCALE_DOWN_CLUSTERS cfg →
  croniter_is_valid lib (SCALE_DOWN_CRON cfg) = true →
  croniter_is_valid lib (SCALE_UP_CRON cfg) = true →
(croniter_get_prev lib (SCALE_DOWN_CRON cfg) (datetime_now m)
   > croniter_get_prev lib (SCALE_UP_CRON cfg) (datetime_now m))%Z →
  cron_verdict m name = false
  ∧ cron_log m name
    = [Log INFO ("Cluster " +:+ name +:+ " is scaled down. Not processing.")].
Proof.
  intros Hin Hdown Hup Hlater.
  unfold cron_verdict, cron_log, check_cluster_cron.
  rewrite bool_decide_eq_true_2, Hdown, Hup by done. cbn [negb orb]. cbv zeta.
  apply Z.gt_lt, Z.gtb_lt in Hlater. by rewrite Hlater.
Qed.

Lemma cron_scaled_up m name :
  name ∈ SCALE_DOWN_CLUSTERS cfg →
  croniter_is_valid lib (SCALE_DOWN_CRON cfg) = true →
  croniter_is_valid lib (SCALE_UP_CRON cfg) = true →
(croniter_get_prev lib (SCALE_DOWN_CRON cfg) (datetime_now m)
   ≤ croniter_get_prev lib (SCALE_UP_CRON cfg) (datetime_now m))%Z →
  cron_verdict m name = true
  ∧ cron_log m name
    = [Log INFO ("Cluster " +:+ name +:+ " is scaled up. Processing as normal.")].
Proof.
  intros Hin Hdown Hup Hle.
  unfold cron_verdict, cron_log, check_cluster_cron.
  rewrite bool_decide_eq_true_2, Hdown, Hup by done. cbn [negb orb]. cbv zeta.
  replace (_ >? _) with false; [done|].
  symmetry. rewrite Z.gtb_ltb. by apply Z.ltb_ge.
Qed.

Ltac enter_iteration :=
  unfold check_iteration; cbv zeta; unfold bind at 1;
  rewrite check_cluster_cron_run.

Lemma check_iteration_skipped m c w :
  cron_verdict m (cluster_name c) = false →
  check_iteration lib cfg m c w = (Ok tt, extend w (cron_log m (cluster_name c))).
Proof. intros Hv. enter_iteration. by rewrite Hv. Qed.

Lemma check_iteration_no_epoch m c w :
  cron_verdict m (cluster_name c) = true →
  epoch_seconds (attributes c) = None →
  check_iteration lib cfg m c w
  = (Raise (KeyError "epoch_seconds"), extend w (cron_log m (cluster_name c))).
Proof. intros Hv He. enter_iteration. by rewrite Hv, He. Qed.

Lemma check_iteration_no_threshold m c w e :
  cron_verdict m (cluster_name c) = true →
  epoch_seconds (attributes c) = Some e →
  int lib (MAX_TIME_SECONDS cfg) = None →
  check_iteration lib cfg m c w
  = (Raise (ValueError (MAX_TIME_SECONDS cfg)),
     extend w (cron_log m (cluster_name c))).
Proof. intros Hv He Hi. enter_iteration. by rewrite Hv, He, Hi. Qed.

Lemma check_iteration_stale m c w e max :
  cron_verdict m (cluster_name c) = true →
  epoch_seconds (attributes c) = Some e →
  int lib (MAX_TIME_SECONDS cfg) = Some max →
  (time_time m - e > max)%Z →
  check_iteration lib cfg m c w
  = (Ok tt,
     {| table := written m (cluster_name c) true (table w);
        journal := journal w ++ cron_log m (cluster_name c)
                   ++ alert_effects m (cluster_name c) (time_time m - e) |}).
Proof.
  intros Hv He Hi Hstale. enter_iteration. rewrite Hv, He, Hi. cbn [negb].
  apply Z.gt_lt, Z.gtb_lt in Hstale. rewrite Hstale.
  unfold bind. rewrite !logger_run, send_slack_notification_run.
  rewrite dynamodb_update_run. unfold alert_effects, extend. simpl.
  by rewrite <- !app_assoc.
Qed.

Lemma check_iteration_fresh m c w e max :
  cron_verdict m (cluster_name c) = true →
  epoch_seconds (attributes c) = Some e →
  int lib (MAX_TIME_SECONDS cfg) = Some max →
  (time_time m - e ≤ max)%Z →
  check_iteration lib cfg m c w
  = (Ok tt,
     {| table := written m (cluster_name c) false (table w);
        journal := journal w ++ cron_log m (cluster_name c)
                   ++ fresh_effects m (cluster_name c) (time_time m - e)
                        (prior_alert c) |}).
Proof.
  intros Hv He Hi Hfresh. enter_iteration. rewrite Hv, He, Hi. cbn [negb].
  replace (_ >? _) with false
    by (symmetry; rewrite Z.gtb_ltb; by apply Z.ltb_ge).
  unfold bind. rewrite logger_run. fold (prior_alert c).
  unfold fresh_effects. destruct (prior_alert c).
  - unfold bind. rewrite logger_run, send_slack_notification_run.
    rewrite dynamodb_update_run. unfold extend. simpl.
    by rewrite <- !app_assoc.
  - unfold ret. rewrite dynamodb_update_run. unfold extend. simpl.
    by rewrite <- !app_assoc.
Qed.

(** *** An iteration is local

    The loop body reads the scanned dict and the moment only, never the
    world: its result, its effects and the write it commits are the same in
    every world, and equal to those of the run in the empty world. *)

Lemma written_commit m name b t :
  written m name b t
  = commit name ((written m name b ∅ !! name) ≫= error_state) t.
Proof.
  unfold written, commit. destruct (update_item_raises m); [done|].
  by rewrite upsert_error_state_lookup.
Qed.

Lemma check_iteration_local m c w :
  check_iteration lib cfg m c w
  = (iteration_result m c,
     {| table := commit (cluster_name c) (iteration_write m c) (table w);
        journal := journal w ++ iteration_effects m c |}).
Proof.
  unfold iteration_result, iteration_effects, iteration_write.
  destruct (cron_verdict m (cluster_name c)) eqn:Hv.
  2: { by rewrite !check_iteration_skipped. }
  destruct (epoch_seconds (attributes c)) as [e|] eqn:He.
  2: { by rewrite !check_iteration_no_epoch. }
  destruct (int lib (MAX_TIME_SECONDS cfg)) as [max|] eqn:Hi.
  2: { by rewrite !(check_iteration_no_threshold _ _ _ e). }
  destruct (Z_gt_le_dec (time_time m - e) max) as [Hstale|Hfresh].
  - rewrite !(check_iteration_stale _ _ _ e max) by done. simpl.
    by rewrite <- written_commit.
  - rewrite !(check_iteration_fresh _ _ _ e max) by done. simpl.
    by rewrite <- written_commit.
Qed.

Lemma commit_lookup_ne name wr (t : gmap string item) k :
  name ≠ k → commit name wr t !! k = t !! k.
Proof. intros Hne. destruct wr; [by apply upsert_lookup_ne | done]. Qed.

Lemma commit_epoch name wr (t : gmap string item) k :
  (commit name wr t !! k) ≫= epoch_seconds = (t !! k) ≫= epoch_seconds.
Proof. destruct wr; [apply upsert_error_state_epoch | done]. Qed.

Lemma commit_commute n1 wr1 n2 wr2 (t : gmap string item) :
  n1 ≠ n2 →
  commit n1 wr1 (commit n2 wr2 t) = commit n2 wr2 (commit n1 wr1 t).
Proof.
  intros Hne. destruct wr1 as [b1|], wr2 as [b2|]; try done.
  unfold commit, upsert.
  rewrite !lookup_insert_ne by done. by apply insert_insert_ne.
Qed.

(** *** The scan *)

Lemma scan_pages_table tn key svc acc w :
  table (scan_pages tn key svc acc w).2 = table w.
Proof.
  revert key acc w. induction svc as [err|items|items k next IH];
    intros key acc w; simpl; try done.
  unfold bind. rewrite emit_run. by rewrite IH.
Qed.

Lemma dynamodb_scan_table svc tn w :
  table (dynamodb_scan svc tn w).2 = table w.
Proof.
  unfold dynamodb_scan, try_except.
  pose proof (scan_pages_table tn None svc [] w) as Ht.
  destruct (scan_pages tn None svc [] w) as [[l|e] w'] eqn:Hs; simpl in *;
    [done|].
  by destruct e.
Qed.

(** *** The loop *)

Lemma check_loop_app env i l1 l2 w :
  check_loop lib cfg env i (l1 ++ l2) w
  = (check_loop lib cfg env i l1 ;;
     check_loop lib cfg env (i + length l1) l2) w.
Proof.
  revert i w. induction l1 as [|c l1 IH]; intros i w; simpl.
  - unfold bind, ret. by rewrite Nat.add_0_r.
  - unfold bind. 
    destruct (check_iteration lib cfg (env i) c w) as [[[]|e] w'];
      [|done].
    rewrite IH. unfold bind. by rewrite Nat.add_succ_r.
Qed.

Lemma check_loop_table_frame env i l w k :
  k ∉ cluster_name <$> l →
  table (check_loop lib cfg env i l w).2 !! k = table w !! k.
Proof.
  revert i w. induction l as [|c l IH]; intros i w Hk; simpl; [done|].
  rewrite fmap_cons, not_elem_of_cons in Hk. destruct Hk as [Hne Hk].
  unfold bind. rewrite check_iteration_local.
  destruct (iteration_result (env i) c) as [[]|e]; simpl.
  - rewrite IH by done. simpl. by apply commit_lookup_ne.
  - by apply commit_lookup_ne.
Qed.

Lemma check_loop_epoch env i l w k :
  (table (check_loop lib cfg env i l w).2 !! k) ≫= epoch_seconds
  = (table w !! k) ≫= epoch_seconds.
Proof.
  revert i w. induction l as [|c l IH]; intros i w; simpl; [done|].
  unfold bind. rewrite check_iteration_local.
  destruct (iteration_result (env i) c) as [[]|e]; simpl.
  - rewrite IH. simpl. apply commit_epoch.
  - apply commit_epoch.
Qed.

Lemma posts_alert_effects m name d :
  posts (alert_effects m name d) = [notification (time_since_text name d) true].
Proof.
  unfold alert_effects. rewrite !posts_app.
  by rewrite posts_post_outcome, posts_update_outcome.
Qed.

Lemma updates_alert_effects m name d :
  updates (alert_effects m name d) = [(name, SetErrorState true)].
Proof.
  unfold alert_effects. rewrite !updates_app.
  by rewrite updates_post_outcome, updates_update_outcome.
Qed.

Lemma posts_fresh_effects m name d prior :
  posts (fresh_effects m name d prior)
  = if prior then [notification (time_since_text name d) false] else [].
Proof.
  unfold fresh_effects. rewrite !posts_app, posts_update_outcome.
  destruct prior; [|done].
  change (posts (Log INFO ("Sending recovery Slack notification for " +:+ name)
                 :: post_outcome m (time_since_text name d) false))
    with (posts (post_outcome m (time_since_text name d) false)).
  by rewrite posts_post_outcome.
Qed.

Lemma updates_fresh_effects m name d prior :
  updates (fresh_effects m name d prior) = [(name, SetErrorState false)].
Proof.
  unfold fresh_effects. rewrite !updates_app, updates_update_outcome.
  destruct prior; [|done].
  change (updates (Log INFO ("Sending recovery Slack notification for "
                             +:+ name)
                   :: post_outcome m (time_since_text name d) false))
    with (updates (post_outcome m (time_since_text name d) false)).
  by rewrite updates_post_outcome.
Qed.

(** *** Reaching a cluster *)

(** Until the loop comes to a cluster, the rows of the clusters not yet
    visited are as the pass found them. *)
Lemma reaches_table svc env w l1 c l2 w1 k :
  reaches svc env w l1 c l2 w1 →
  k ∉ cluster_name <$> l1 →
  table w1 !! k = table w !! k.
Proof.
  intros (ws & Hscan & Hloop) Hk.
  pose proof (check_loop_table_frame env 0 l1 ws k Hk) as Hframe.
  rewrite Hloop in Hframe. simpl in Hframe. rewrite Hframe.
  pose proof (dynamodb_scan_table svc (ENVIRONMENT_NAME cfg) w) as Hs.
  rewrite Hscan in Hs. simpl in Hs. by rewrite Hs.
Qed.

Lemma check_reaches svc env w l1 c l2 w1 :
  reaches svc env w l1 c l2 w1 →
  check lib cfg svc env w
  = (check_iteration lib cfg (env (length l1)) c ;;
     check_loop lib cfg env (S (length l1)) l2) w1.
Proof.
  intros (ws & Hscan & Hloop). unfold check. unfold bind at 1.
  rewrite Hscan, check_loop_app. unfold bind at 1. rewrite Hloop.
  reflexivity.
Qed.

Lemma check_scanned svc env w l ws :
  dynamodb_scan svc (ENVIRONMENT_NAME cfg) w = (Ok l, ws) →
  check lib cfg svc env w = check_loop lib cfg env 0 l ws.
Proof. intros Hscan. unfold check, bind. by rewrite Hscan. Qed.

Lemma processed_verdict m name w :
  (check_cluster_cron lib cfg m name w).1 = Ok true →
  cron_verdict m name = true.
Proof. rewrite check_cluster_cron_run. simpl. congruence. Qed.

(** *** The effects of an iteration do not depend on the world *)

Lemma since_iteration m c w :
  since w (check_iteration lib cfg m c w).2 = iteration_effects m c.
Proof. rewrite check_iteration_local. apply since_extend. Qed.

End EvaluatorFacts.

(** ** The Evaluator: the claims *)

Import Py World Checker.

(** C1.  A cluster the pass processes whose staleness exceeds the threshold
    gets exactly one alert post and exactly one update request, which sets
    error_state to true, whatever its prior alert state; the pass then goes
    on with the remaining records, and when the update is accepted the
    registry holds error_state = true for the cluster after the iteration and
    at the end of the pass. *)
Theorem stale_cluster_alerts lib cfg svc env w l1 c l2 w1 e max :
  reaches lib cfg svc env w l1 c l2 w1 →
  let m := env (length l1) in
  let name := cluster_name c in
  (check_cluster_cron lib cfg m name w1).1 = Ok true →
  epoch_seconds (attributes c) = Some e →
  int lib (MAX_TIME_SECONDS cfg) = Some max →
  (time_time m - e > max)%Z →
  let it := check_iteration lib cfg m c w1 in
  it.1 = Ok tt
  ∧ posts (since w1 it.2)
    = [notification cfg (time_since_text name (time_time m - e)) true]
  ∧ updates (since w1 it.2) = [(name, SetErrorState true)]
  ∧ check lib cfg svc env w = check_loop lib cfg env (S (length l1)) l2 it.2
  ∧ (update_item_raises m = None →
     (table it.2 !! name) ≫= error_state = Some true
     ∧ (name ∉ cluster_name <$> l2 →
        (table (check lib cfg svc env w).2 !! name) ≫= error_state
        = Some true)).
Proof.
  cbv zeta. intros Hreach Hproc He Hmax Hstale.
  set (m := env (length l1)) in *. set (name := cluster_name c) in *.
  apply processed_verdict in Hproc.
  pose proof (check_iteration_stale lib cfg m c w1 e max Hproc He Hmax Hstale)
    as Hit. fold name in Hit.
  pose proof (check_reaches _ _ _ _ _ _ _ _ _ Hreach) as Hcheck.
  fold m in Hcheck. unfold bind in Hcheck. rewrite Hit in Hcheck.
  rewrite Hit. cbn [fst snd].
  destruct (cron_log_quiet lib cfg m name) as [Hqu Hqp].
  split; [done|].
  split.
  { rewrite since_extend, posts_app, Hqp. apply posts_alert_effects. }
  split.
  { rewrite since_extend, updates_app, Hqu. apply updates_alert_effects. }
  split; [exact Hcheck|].
  intros Hok.
  assert (Hnow : (written m name true (table w1) !! name) ≫= error_state
                 = Some true).
  { unfold written. rewrite Hok. apply upsert_error_state_lookup. }
  split; [exact Hnow|]. intros Hlast.
  rewrite Hcheck, check_loop_table_frame by done. exact Hnow.
Qed.

Lemma stale_cluster_alerts_witness :
  let out := check Scenario.lib Scenario.checker_cfg
               Scenario.first_scan (λ _, Scenario.calm 1000) Scenario.start in
  text <$> posts (journal out.2)
  = ["*Prometheus Instance Not Responding*" +:+ Py.nl +:+
     "A Prometheus instance has not checked in for over 5 minutes" +:+ Py.nl
     +:+ "Time since b checked in is 400 seconds"]
  ∧ (table out.2 !! "b") ≫= error_state = Some true.
Proof.
  assert (Hreach : reaches Scenario.lib Scenario.checker_cfg
    Scenario.first_scan (λ _, Scenario.calm 1000) Scenario.start
    [Scenario.a_fresh] Scenario.b_stale []
    Scenario.after_a).
  { exists {| World.table := Scenario.registry;
              World.journal := [World.Scan "prod" None] |}.
    split; by vm_compute. }
  destruct (stale_cluster_alerts Scenario.lib Scenario.checker_cfg
    Scenario.first_scan (λ _, Scenario.calm 1000) Scenario.start
    [Scenario.a_fresh] Scenario.b_stale []
    Scenario.after_a 600 300
    Hreach eq_refl eq_refl eq_refl eq_refl) as (_ & _ & _ & _ & Hwritten).
  destruct (Hwritten eq_refl) as [_ Hend].
  split; [by vm_compute | apply Hend; simpl; apply not_elem_of_nil].
Defined.

(** C2.  A cluster the pass processes whose staleness is within the threshold
    gets exactly one update request, which sets error_state to false; when
    its prior error_state was true it also gets exactly one recovery post,
    and when the prior error_state was false or absent it gets no post.  The
    pass then goes on with the remaining records, and when the update is
    accepted the registry holds error_state = false for the cluster. *)
Theorem fresh_cluster_recovers lib cfg svc env w l1 c l2 w1 e max :
  reaches lib cfg svc env w l1 c l2 w1 →
  let m := env (length l1) in
  let name := cluster_name c in
  (check_cluster_cron lib cfg m name w1).1 = Ok true →
  epoch_seconds (attributes c) = Some e →
  int lib (MAX_TIME_SECONDS cfg) = Some max →
  (time_time m - e ≤ max)%Z →
  let it := check_iteration lib cfg m c w1 in
  it.1 = Ok tt
  ∧ (error_state (attributes c) = Some true →
     posts (since w1 it.2)
     = [notification cfg (time_since_text name (time_time m - e)) false])
  ∧ (error_state (attributes c) = Some false
     ∨ error_state (attributes c) = None →
     posts (since w1 it.2) = [])
  ∧ updates (since w1 it.2) = [(name, SetErrorState false)]
  ∧ check lib cfg svc env w = check_loop lib cfg env (S (length l1)) l2 it.2
  ∧ (update_item_raises m = None →
     (table it.2 !! name) ≫= error_state = Some false
     ∧ (name ∉ cluster_name <$> l2 →
        (table (check lib cfg svc env w).2 !! name) ≫= error_state
        = Some false)).
Proof.
  cbv zeta. intros Hreach Hproc He Hmax Hfresh.
  set (m := env (length l1)) in *. set (name := cluster_name c) in *.
  apply processed_verdict in Hproc.
  pose proof (check_iteration_fresh lib cfg m c w1 e max Hproc He Hmax Hfresh)
    as Hit. fold name in Hit.
  pose proof (check_reaches _ _ _ _ _ _ _ _ _ Hreach) as Hcheck.
  fold m in Hcheck. unfold bind in Hcheck. rewrite Hit in Hcheck.
  rewrite Hit. cbn [fst snd].
  destruct (cron_log_quiet lib cfg m name) as [Hqu Hqp].
  rewrite since_extend, posts_app, updates_app, Hqu, Hqp.
  rewrite posts_fresh_effects, updates_fresh_effects. unfold prior_alert.
  split; [done|].
  split; [by intros ->|].
  split; [by intros [-> | ->]|].
  split; [done|].
  split; [exact Hcheck|].
  intros Hok.
  assert (Hnow : (written m name false (table w1) !! name) ≫= error_state
                 = Some false).
  { unfold written. rewrite Hok. apply upsert_error_state_lookup. }
  split; [exact Hnow|]. intros Hlast.
  rewrite Hcheck, check_loop_table_frame by done. exact Hnow.
Qed.

Lemma fresh_cluster_recovers_witness :
  let out := check Scenario.lib Scenario.checker_cfg
               Scenario.later_scan (λ _, Scenario.calm 1000) Scenario.start in
  updates (journal out.2)
  = [("a", SetErrorState false); ("b", SetErrorState false)]
  ∧ (table out.2 !! "b") ≫= error_state = Some false.
Proof.
  assert (Hreach : reaches Scenario.lib Scenario.checker_cfg
    Scenario.later_scan (λ _, Scenario.calm 1000) Scenario.start
    [Scenario.a_fresh] Scenario.b_back []
    Scenario.after_a).
  { exists {| table := Scenario.registry; journal := [Scan "prod" None] |}.
    split; by vm_compute. }
  destruct (fresh_cluster_recovers Scenario.lib Scenario.checker_cfg
    Scenario.later_scan (λ _, Scenario.calm 1000) Scenario.start
    [Scenario.a_fresh] Scenario.b_back []
    Scenario.after_a 940 300
    Hreach eq_refl eq_refl eq_refl) as (_ & _ & _ & _ & _ & Hwritten).
  { by vm_compute. }
  destruct (Hwritten eq_refl) as [_ Hend].
  split; [by vm_compute | apply Hend; simpl; apply not_elem_of_nil].
Defined.

(** C3.  A cluster of the maintenance group is skipped when both cron
    expressions are valid and the latest scale-down is later than the latest
    scale-up: its iteration only logs that the cluster is scaled down (it
    succeeds even when the record has no epoch_seconds, as staleness is never
    computed), issues no update request and no post, leaves the table as it
    was, and the pass goes on with the remaining records; the row of a
    cluster scanned once is the same after the pass as before. *)
Theorem maintenance_window_skips lib cfg svc env w l1 c l2 w1 :
  reaches lib cfg svc env w l1 c l2 w1 →
  let m := env (length l1) in
  let name := cluster_name c in
  name ∈ SCALE_DOWN_CLUSTERS cfg →
  croniter_is_valid lib (SCALE_DOWN_CRON cfg) = true →
  croniter_is_valid lib (SCALE_UP_CRON cfg) = true →
  (croniter_get_prev lib (SCALE_DOWN_CRON cfg) (datetime_now m)
   > croniter_get_prev lib (SCALE_UP_CRON cfg) (datetime_now m))%Z →
  let skipped :=
    extend w1 [Log INFO ("Cluster " +:+ name
                         +:+ " is scaled down. Not processing.")] in
  check_iteration lib cfg m c w1 = (Ok tt, skipped)
  ∧ table skipped = table w1
  ∧ updates (since w1 skipped) = []
  ∧ posts (since w1 skipped) = []
  ∧ check lib cfg svc env w
    = check_loop lib cfg env (S (length l1)) l2 skipped
  ∧ (name ∉ cluster_name <$> l1 ++ l2 →
     table (check lib cfg svc env w).2 !! name = table w !! name).
Proof.
  cbv zeta. intros Hreach Hin Hdown Hup Hlater.
  set (m := env (length l1)) in *. set (name := cluster_name c) in *.
  destruct (cron_scaled_down lib cfg m name Hin Hdown Hup Hlater)
    as [Hv Hlog].
  pose proof (check_iteration_skipped lib cfg m c w1 Hv) as Hit.
  fold name in Hit. rewrite Hlog in Hit.
  pose proof (check_reaches _ _ _ _ _ _ _ _ _ Hreach) as Hcheck.
  fold m in Hcheck. unfold bind in Hcheck. rewrite Hit in Hcheck.
  split; [exact Hit|]. split; [done|].
  rewrite since_extend_world.
  split; [done|]. split; [done|]. split; [exact Hcheck|].
  intros Hfresh. rewrite fmap_app, not_elem_of_app in Hfresh.
  destruct Hfresh as [Hl1 Hl2].
  rewrite Hcheck, check_loop_table_frame by done. simpl.
  by apply (reaches_table lib cfg svc env w l1 c l2).
Qed.

Lemma maintenance_window_skips_witness :
  let out := check Scenario.lib Scenario.checker_cfg
               Scenario.dev_scan (λ _, Scenario.evening 1000)
               Scenario.start in
  updates (journal out.2) = [("b", SetErrorState true)]
  ∧ table out.2 !! "dev" = None.
Proof.
  assert (Hreach : reaches Scenario.lib Scenario.checker_cfg
    Scenario.dev_scan (λ _, Scenario.evening 1000) Scenario.start
    [] Scenario.dev_stale [Scenario.b_stale] Scenario.scanned).
  { exists Scenario.scanned. split; by vm_compute. }
  destruct (maintenance_window_skips Scenario.lib Scenario.checker_cfg
    Scenario.dev_scan (λ _, Scenario.evening 1000) Scenario.start
    [] Scenario.dev_stale [Scenario.b_stale] Scenario.scanned
    Hreach) as (_ & _ & _ & _ & _ & Hrow).
  - simpl. by constructor.
  - reflexivity.
  - reflexivity.
  - reflexivity.
  - split; [by vm_compute|]. etrans; [apply Hrow | by vm_compute].
    simpl. rewrite not_elem_of_cons. split; [done | apply not_elem_of_nil].
Defined.

(** C4.  When either cron expression is invalid, a cluster of the
    maintenance group is processed as if no maintenance window applied:
    [check_cluster_cron] logs a warning and answers true, and from there the
    iteration is the iteration of the deployment without maintenance
    settings (the same staleness test, update and notifications), before the
    pass goes on with the remaining records. *)
Theorem invalid_cron_fails_open lib cfg svc env w l1 c l2 w1 :
  reaches lib cfg svc env w l1 c l2 w1 →
  let m := env (length l1) in
  let name := cluster_name c in
  name ∈ SCALE_DOWN_CLUSTERS cfg →
  croniter_is_valid lib (SCALE_DOWN_CRON cfg) = false
  ∨ croniter_is_valid lib (SCALE_UP_CRON cfg) = false →
  let warned :=
    extend w1 [Log WARNING ("Cron expression invalid. Processing " +:+ name
                            +:+ " as normal.")] in
  check_cluster_cron lib cfg m name w1 = (Ok true, warned)
  ∧ check_iteration lib cfg m c w1
    = check_iteration lib (without_maintenance cfg) m c warned
  ∧ check lib cfg svc env w
    = (check_iteration lib (without_maintenance cfg) m c ;;
       check_loop lib cfg env (S (length l1)) l2) warned.
Proof.
  cbv zeta. intros Hreach Hin Hbad.
  set (m := env (length l1)) in *. set (name := cluster_name c) in *.
  destruct (cron_invalid_expression lib cfg m name Hin Hbad) as [Hv Hlog].
  destruct (cron_outside_group lib (without_maintenance cfg) m name)
    as [Hv0 Hlog0]; [apply not_elem_of_nil|].
  assert (Hit : check_iteration lib cfg m c w1
    = check_iteration lib (without_maintenance cfg) m c
        (extend w1 [Log WARNING ("Cron expression invalid. Processing "
                                 +:+ name +:+ " as normal.")])).
  { destruct (epoch_seconds (attributes c)) as [e|] eqn:He.
    2: { rewrite !check_iteration_no_epoch by done. fold name.
         by rewrite Hlog, Hlog0, extend_extend. }
    destruct (int lib (MAX_TIME_SECONDS cfg)) as [max|] eqn:Hi.
    2: { rewrite !(check_iteration_no_threshold _ _ _ _ _ e) by done.
         fold name. by rewrite Hlog, Hlog0, extend_extend. }
    destruct (Z_gt_le_dec (time_time m - e) max) as [Hstale|Hfresh].
    - rewrite !(check_iteration_stale _ _ _ _ _ e max) by done. fold name.
      rewrite Hlog, Hlog0. simpl. by rewrite <- !app_assoc.
    - rewrite !(check_iteration_fresh _ _ _ _ _ e max) by done. fold name.
      rewrite Hlog, Hlog0. simpl. by rewrite <- !app_assoc. }
  split; [by rewrite check_cluster_cron_run, Hv, Hlog|].
  split; [exact Hit|].
  rewrite (check_reaches _ _ _ _ _ _ _ _ _ Hreach). fold m.
  unfold bind. by rewrite Hit.
Qed.

Lemma invalid_cron_fails_open_witness :
  let out := check Scenario.lib Scenario.broken_cron_cfg
               Scenario.dev_scan (λ _, Scenario.evening 1000)
               Scenario.start in
  updates (journal out.2)
  = [("dev", SetErrorState true); ("b", SetErrorState true)]
  ∧ length (posts (journal out.2)) = 2%nat.
Proof.
  assert (Hreach : reaches Scenario.lib Scenario.broken_cron_cfg
    Scenario.dev_scan (λ _, Scenario.evening 1000) Scenario.start
    [] Scenario.dev_stale [Scenario.b_stale] Scenario.scanned).
  { exists Scenario.scanned. split; by vm_compute. }
  destruct (invalid_cron_fails_open Scenario.lib Scenario.broken_cron_cfg
    Scenario.dev_scan (λ _, Scenario.evening 1000) Scenario.start
    [] Scenario.dev_stale [Scenario.b_stale] Scenario.scanned
    Hreach) as (_ & _ & Hcheck).
  - simpl. by constructor.
  - right. reflexivity.
  - rewrite Hcheck. by vm_compute.
Defined.

(** C7.  Whatever the table service and Slack answer during the iteration of
    a processed cluster, the iteration does not raise: it issues exactly one
    update request, with the alert state the staleness test decided, also
    when the post to Slack fails, and the pass goes on with the remaining
    records.  A refused update leaves the table as it was and is logged as a
    warning; a failed post is logged as an error. *)
Theorem evaluator_swallows_failures lib cfg svc env w l1 c l2 w1 e max :
  reaches lib cfg svc env w l1 c l2 w1 →
  let m := env (length l1) in
  let name := cluster_name c in
  (check_cluster_cron lib cfg m name w1).1 = Ok true →
  epoch_seconds (attributes c) = Some e →
  int lib (MAX_TIME_SECONDS cfg) = Some max →
  let it := check_iteration lib cfg m c w1 in
  it.1 = Ok tt
  ∧ updates (since w1 it.2)
    = [(name, SetErrorState (time_time m - e >? max))]
  ∧ check lib cfg svc env w = check_loop lib cfg env (S (length l1)) l2 it.2
  ∧ (∀ err, update_item_raises m = Some err →
       table it.2 = table w1 ∧ Log WARNING err ∈ since w1 it.2)
  ∧ (∀ err, post_raises m = Some err →
       posts (since w1 it.2) ≠ [] → Log ERROR err ∈ since w1 it.2).
Proof.
  cbv zeta. intros Hreach Hproc He Hmax.
  set (m := env (length l1)) in *. set (name := cluster_name c) in *.
  apply processed_verdict in Hproc.
  pose proof (check_reaches _ _ _ _ _ _ _ _ _ Hreach) as Hcheck.
  fold m in Hcheck. unfold bind in Hcheck.
  destruct (cron_log_quiet lib cfg m name) as [Hqu Hqp].
  destruct (Z_gt_le_dec (time_time m - e) max) as [Hstale|Hfresh].
  - pose proof (check_iteration_stale lib cfg m c w1 e max Hproc He Hmax
                  Hstale) as Hit. fold name in Hit.
    rewrite Hit in Hcheck. rewrite Hit. cbn [fst snd].
    rewrite since_extend.
    replace (time_time m - e >? max) with true
      by (symmetry; by apply Z.gtb_lt, Z.gt_lt).
    split; [done|].
    split; [by rewrite updates_app, Hqu, updates_alert_effects|].
    split; [exact Hcheck|].
    split.
    + intros err Herr. unfold written. rewrite Herr. split; [done|].
      unfold alert_effects, update_outcome. rewrite Herr.
      rewrite !elem_of_app, !elem_of_cons. naive_solver.
    + intros err Herr _.
      unfold alert_effects, post_outcome. rewrite Herr.
      rewrite !elem_of_app, !elem_of_cons. naive_solver.
  - pose proof (check_iteration_fresh lib cfg m c w1 e max Hproc He Hmax
                  Hfresh) as Hit. fold name in Hit.
    rewrite Hit in Hcheck. rewrite Hit. cbn [fst snd].
    rewrite since_extend.
    replace (time_time m - e >? max) with false
      by (symmetry; rewrite Z.gtb_ltb; by apply Z.ltb_ge).
    split; [done|].
    split; [by rewrite updates_app, Hqu, updates_fresh_effects|].
    split; [exact Hcheck|].
    split.
    + intros err Herr. unfold written. rewrite Herr. split; [done|].
      unfold fresh_effects, update_outcome. rewrite Herr.
      rewrite !elem_of_app, !elem_of_cons. naive_solver.
    + intros err Herr.
      rewrite posts_app, Hqp, posts_fresh_effects. simpl.
      unfold fresh_effects. destruct (prior_alert c); [intros _|done].
      unfold post_outcome. rewrite Herr.
      rewrite !elem_of_app, !elem_of_cons. naive_solver.
Qed.

Lemma evaluator_swallows_failures_witness :
  let out := check Scenario.lib Scenario.checker_cfg
               Scenario.dev_scan (λ _, Scenario.all_down 1000)
               Scenario.start in
  out.1 = Ok tt
  ∧ updates (journal out.2)
    = [("dev", SetErrorState true); ("b", SetErrorState true)]
  ∧ table out.2 = Scenario.registry.
Proof.
  assert (Hreach : reaches Scenario.lib Scenario.checker_cfg
    Scenario.dev_scan (λ _, Scenario.all_down 1000) Scenario.start
    [] Scenario.dev_stale [Scenario.b_stale] Scenario.scanned).
  { exists Scenario.scanned. split; by vm_compute. }
  destruct (evaluator_swallows_failures Scenario.lib Scenario.checker_cfg
    Scenario.dev_scan (λ _, Scenario.all_down 1000) Scenario.start
    [] Scenario.dev_stale [Scenario.b_stale] Scenario.scanned 0 300
    Hreach eq_refl eq_refl eq_refl) as (_ & _ & Hcheck & _).
  rewrite Hcheck. by vm_compute.
Defined.

(** C8.  [webhook] never changes the error_state of any row, and changes no
    row but the one of the cluster named in the path; [check] never changes
    the epoch_seconds of any row, and changes no row but those of the
    clusters it scanned.  So epoch_seconds is written by the Recorder only
    and error_state by the Evaluator only. *)
Theorem writers_are_disjoint :
  (∀ cfg m ev w k,
     let t' := table (Api.webhook cfg m ev w).2 in
     (t' !! k) ≫= error_state = (table w !! k) ≫= error_state
     ∧ (Api.path ev !! "cluster_name" ≠ Some k → t' !! k = table w !! k))
  ∧ (∀ lib cfg svc env w k,
       let t' := table (check lib cfg svc env w).2 in
       (t' !! k) ≫= epoch_seconds = (table w !! k) ≫= epoch_seconds
       ∧ (∀ l ws, dynamodb_scan svc (ENVIRONMENT_NAME cfg) w = (Ok l, ws) →
                  k ∉ cluster_name <$> l → t' !! k = table w !! k)).
Proof.
  split.
  - intros cfg m ev w k. cbv zeta.
    rewrite webhook_table. case_bool_decide; [|done].
    destruct (Api.path ev !! "cluster_name") as [name|] eqn:Hpath; [|done].
    destruct (update_item_raises m); [done|].
    split; [apply upsert_epoch_error_state|].
    intros Hk. apply upsert_lookup_ne. congruence.
  - intros lib cfg svc env w k. cbv zeta.
    unfold check, bind.
    pose proof (dynamodb_scan_table svc (ENVIRONMENT_NAME cfg) w) as Hs.
    destruct (dynamodb_scan svc (ENVIRONMENT_NAME cfg) w) as [[l|e] ws];
      simpl in Hs.
    + rewrite check_loop_epoch, Hs. split; [done|].
      intros l' ws' [= <- <-] Hk.
      by rewrite check_loop_table_frame, Hs.
    + simpl. rewrite Hs. split; [done|]. by intros l' ws' [=].
Qed.

(** *** The wording of the alert *)

Lemma prefix_of_app p s : prefix_of p (p +:+ s) = true.
Proof. induction p as [|a p IH]; simpl; [done|]. by rewrite Ascii.eqb_refl. Qed.

Lemma contains_prefix needle s :
  prefix_of needle s = true → contains needle s = true.
Proof. intros H. destruct s; simpl; by rewrite H. Qed.

Lemma contains_app needle before after :
  contains needle (before +:+ needle +:+ after) = true.
Proof.
  induction before as [|a before IH]; simpl.
  - change (contains needle (needle +:+ after) = true).
    apply contains_prefix, prefix_of_app.
  - rewrite IH. apply orb_true_r.
Qed.

Lemma slack_text_alert notification_text :
  contains "has not checked in for over 5 minutes"
    (slack_text notification_text true) = true.
Proof.
  change (slack_text notification_text true)
    with (("*Prometheus Instance Not Responding*" +:+ nl +:+
           "A Prometheus instance ")
          +:+ "has not checked in for over 5 minutes"
          +:+ (nl +:+ notification_text)).
  apply contains_app.
Qed.

(** C10.  Whatever the configured threshold, every post issued for a
    processed cluster whose staleness exceeds it carries the alert text,
    which contains the fixed phrase "has not checked in for over 5 minutes":
    the figure in the text does not follow MAX_TIME_SECONDS. *)
Theorem alert_says_five_minutes lib cfg m c w e max :
  (check_cluster_cron lib cfg m (cluster_name c) w).1 = Ok true →
  epoch_seconds (attributes c) = Some e →
  int lib (MAX_TIME_SECONDS cfg) = Some max →
  (time_time m - e > max)%Z →
  ∀ b, b ∈ posts (since w (check_iteration lib cfg m c w).2) →
    text b
    = "*Prometheus Instance Not Responding*" +:+ nl +:+
      "A Prometheus instance has not checked in for over 5 minutes" +:+ nl +:+
      time_since_text (cluster_name c) (time_time m - e)
    ∧ contains "has not checked in for over 5 minutes" (text b) = true.
Proof.
  intros Hproc He Hmax Hstale b.
  apply processed_verdict in Hproc.
  rewrite (check_iteration_stale lib cfg m c w e max) by done. cbn [snd].
  destruct (cron_log_quiet lib cfg m (cluster_name c)) as [_ Hqp].
  rewrite since_extend, posts_app, Hqp, posts_alert_effects.
  intros ->%list_elem_of_singleton. split; [done|].
  apply slack_text_alert.
Qed.

Lemma alert_says_five_minutes_witness :
  Forall (λ b, contains "has not checked in for over 5 minutes" (text b) = true
               ∧ contains "4400 seconds" (text b) = true)
    (posts (since Scenario.start
              (check_iteration Scenario.lib Scenario.hourly_cfg
                 (Scenario.calm 5000) Scenario.b_stale Scenario.start).2)).
Proof.
  apply Forall_forall. intros b Hb.
  destruct (alert_says_five_minutes Scenario.lib Scenario.hourly_cfg
    (Scenario.calm 5000) Scenario.b_stale Scenario.start 600 3600
    eq_refl eq_refl eq_refl eq_refl b Hb) as [Htext Hphrase].
  split; [exact Hphrase|]. rewrite Htext. by vm_compute.
Defined.

(** ** Order of the scan *)

(** C9 (as stated) fails when the clock ticks between two iterations.  With a
    threshold of 300 seconds and "b" last seen at 600, the clock reads 900 in
    the first iteration and 901 in the second.  Scanned second, "b" is 301
    seconds stale: it is alerted on and left with error_state = true.
    Scanned first, the same record is 300 seconds stale: no post is issued
    and it is left with error_state = false. *)
Lemma clock_tick_counterexample :
  let env := λ i : nat, Scenario.calm (900 + Z.of_nat i) in
  let out := check Scenario.lib Scenario.checker_cfg
               (LastPage (Some [Scenario.a_fresh; Scenario.b_stale]))
               env Scenario.start in
  let out' := check Scenario.lib Scenario.checker_cfg
                (LastPage (Some [Scenario.b_stale; Scenario.a_fresh]))
                env Scenario.start in
  [Scenario.a_fresh; Scenario.b_stale] ≡ₚ [Scenario.b_stale; Scenario.a_fresh]
  ∧ out.1 = Ok tt ∧ out'.1 = Ok tt
  ∧ (table out.2 !! "b") ≫= error_state = Some true
  ∧ (table out'.2 !! "b") ≫= error_state = Some false
  ∧ length (posts (journal out.2)) = 1%nat
  ∧ posts (journal out'.2) = [].
Proof.
  split; [apply Permutation_swap|]. by vm_compute.
Qed.

(** A pass in which each cluster has a moment of its own. *)
Lemma check_loop_completes_at lib cfg env at_ i l w :
  (∀ k c, l !! k = Some c → env (i + k)%nat = at_ (cluster_name c)) →
  Forall (λ c, iteration_result lib cfg (at_ (cluster_name c)) c = Ok tt) l →
  check_loop lib cfg env i l w
  = (Ok tt,
     {| table := commits_at lib cfg at_ l (table w);
        journal :=
          journal w
          ++ concat ((λ c, iteration_effects lib cfg (at_ (cluster_name c)) c)
                     <$> l) |}).
Proof.
  intros Henv Hok. revert i w Henv.
  induction Hok as [|c l Hc Hl IH]; intros i w Henv; simpl.
  - destruct w. unfold ret. simpl. by rewrite app_nil_r.
  - assert (Hi : env i = at_ (cluster_name c)).
    { rewrite <- (Nat.add_0_r i). by apply Henv. }
    unfold bind. rewrite check_iteration_local, Hi, Hc, IH.
    + simpl. by rewrite <- app_assoc.
    + intros k c' Hk.
      replace (S i + k)%nat with (i + S k)%nat by lia. by apply Henv.
Qed.

Lemma check_loop_ok_inv_at lib cfg env at_ i l w :
  (∀ k c, l !! k = Some c → env (i + k)%nat = at_ (cluster_name c)) →
  (check_loop lib cfg env i l w).1 = Ok tt →
  Forall (λ c, iteration_result lib cfg (at_ (cluster_name c)) c = Ok tt) l.
Proof.
  revert i w. induction l as [|c l IH]; intros i w Henv Hok; simpl.
  - constructor.
  - assert (Hi : env i = at_ (cluster_name c)).
    { rewrite <- (Nat.add_0_r i). by apply Henv. }
    simpl in Hok. unfold bind in Hok.
    rewrite check_iteration_local, Hi in Hok.
    destruct (iteration_result lib cfg (at_ (cluster_name c)) c)
      as [[]|e] eqn:Hc; [|done].
    constructor; [done|]. eapply (IH (S i)); [|exact Hok].
    intros k c' Hk.
    replace (S i + k)%nat with (i + S k)%nat by lia. by apply Henv.
Qed.

Lemma commits_at_permutation lib cfg at_ l l' (t : gmap string item) :
  l ≡ₚ l' →
  NoDup (cluster_name <$> l) →
  commits_at lib cfg at_ l t = commits_at lib cfg at_ l' t.
Proof.
  intros Hperm. revert t.
  induction Hperm as [|c l l' Hperm IH|c1 c2 l|l l' l'' H1 IH1 H2 IH2];
    intros t Hdup.
  - done.
  - rewrite fmap_cons, NoDup_cons in Hdup. unfold commits_at in *. simpl.
    apply IH, Hdup.
  - rewrite !fmap_cons, !NoDup_cons, not_elem_of_cons in Hdup.
    destruct Hdup as [[Hne _] _].
    unfold commits_at. simpl. f_equal. by apply commit_commute.
  - rewrite IH1 by done. apply IH2. by rewrite <- H1.
Qed.

(** When the scan has one record per cluster, the moments of a pass are a
    function of the cluster name. *)
Lemma moment_of_cluster (env : nat → moment) (l : list cluster) :
  NoDup (cluster_name <$> l) →
  ∃ at_ : string → moment,
    ∀ i c, l !! i = Some c → env i = at_ (cluster_name c).
Proof.
  intros Hdup.
  exists (λ n, match list_find (λ c, cluster_name c = n) l with
               | Some (i, _) => env i
               | None => env 0%nat
               end).
  intros i c Hi.
  destruct (list_find (λ c0, cluster_name c0 = cluster_name c) l)
    as [[i' c']|] eqn:Hfind.
  - apply list_find_Some in Hfind as (Hi' & Hname & _).
    f_equal. eapply (NoDup_lookup (cluster_name <$> l)); [done|..].
    + by rewrite list_lookup_fmap, Hi.
    + by rewrite list_lookup_fmap, Hi', <- Hname.
  - apply list_find_None in Hfind.
    rewrite Forall_forall in Hfind.
    exfalso. apply (Hfind c); [|done]. by eapply list_elem_of_lookup_2.
Qed.

(** C9 (as amended).  What the iteration of a cluster returns, issues and
    writes depends only on the cluster's own scanned record and on the
    moment of its own iteration (its clock readings and the answers of Slack
    and the table service), never on the world the other clusters left.  So
    for every permutation of the scanned records in which each cluster is
    processed at the same moment as under the original order, if the scan
    returns one record per cluster and the original pass runs to its end,
    the permuted pass runs to its end too, leaves the same table, issues the
    same effects up to their order, and the iteration of each cluster issues
    the same effects as under the original order.  The moments of different
    clusters may differ: the clock may tick during the pass, and a service
    may fail for one cluster and not for another. *)
Theorem pass_order_insensitive lib cfg svc svc' env env' w l l' ws ws' :
  dynamodb_scan svc (ENVIRONMENT_NAME cfg) w = (Ok l, ws) →
  dynamodb_scan svc' (ENVIRONMENT_NAME cfg) w = (Ok l', ws') →
  l ≡ₚ l' →
  NoDup (cluster_name <$> l) →
  (∀ i j c, l !! i = Some c → l' !! j = Some c → env i = env' j) →
  (check lib cfg svc env w).1 = Ok tt →
  let out := check lib cfg svc env w in
  let out' := check lib cfg svc' env' w in
  (∀ m c wa wb,
     (check_iteration lib cfg m c wa).1 = (check_iteration lib cfg m c wb).1
     ∧ since wa (check_iteration lib cfg m c wa).2
       = since wb (check_iteration lib cfg m c wb).2
     ∧ ∃ wr, table (check_iteration lib cfg m c wa).2
             = commit (cluster_name c) wr (table wa)
             ∧ table (check_iteration lib cfg m c wb).2
               = commit (cluster_name c) wr (table wb))
  ∧ out'.1 = Ok tt
  ∧ table out.2 = table out'.2
  ∧ since ws out.2 ≡ₚ since ws' out'.2
  ∧ ∀ l1 c l2 l1' l2',
      l = l1 ++ c :: l2 → l' = l1' ++ c :: l2' →
      let w1 := (check_loop lib cfg env 0 l1 ws).2 in
      let w1' := (check_loop lib cfg env' 0 l1' ws').2 in
      since w1 (check_iteration lib cfg (env (length l1)) c w1).2
      = since w1' (check_iteration lib cfg (env' (length l1')) c w1').2.
Proof.
  cbv zeta. intros Hscan Hscan' Hperm Hdup Hsame Hok.
  split.
  { intros m c wa wb. rewrite !check_iteration_local. cbn [fst snd table].
    rewrite !since_extend. split; [done|]. split; [done|]. by eexists. }
  destruct (moment_of_cluster env l Hdup) as [at_ Hat].
  assert (Hat' : ∀ j c, l' !! j = Some c → env' j = at_ (cluster_name c)).
  { intros j c Hj.
    assert (Hin : c ∈ l) by (rewrite Hperm; by eapply list_elem_of_lookup_2).
    apply list_elem_of_lookup_1 in Hin as [i Hi].
    rewrite <- (Hsame i j c Hi Hj). by apply Hat. }
  rewrite (check_scanned lib cfg svc env w l ws Hscan) in Hok |- *.
  rewrite (check_scanned lib cfg svc' env' w l' ws' Hscan').
  pose proof (check_loop_ok_inv_at lib cfg env at_ 0 l ws Hat Hok) as Hall.
  assert (Hall' : Forall (λ c, iteration_result lib cfg
                                 (at_ (cluster_name c)) c = Ok tt) l')
    by (by rewrite <- Hperm).
  rewrite (check_loop_completes_at lib cfg env at_ 0 l ws Hat Hall).
  rewrite (check_loop_completes_at lib cfg env' at_ 0 l' ws' Hat' Hall').
  cbn [fst snd table journal]. rewrite !since_extend.
  assert (Hts : table ws = table ws').
  { pose proof (dynamodb_scan_table svc (ENVIRONMENT_NAME cfg) w) as H1.
    pose proof (dynamodb_scan_table svc' (ENVIRONMENT_NAME cfg) w) as H2.
    rewrite Hscan in H1. rewrite Hscan' in H2. simpl in *. congruence. }
  split; [done|].
  split; [rewrite Hts; by apply commits_at_permutation|].
  split; [by rewrite Hperm|].
  intros l1 c l2 l1' l2' Hl Hl'.
  rewrite !since_iteration. f_equal. apply (Hsame _ _ c).
  - rewrite Hl. by apply list_lookup_middle.
  - rewrite Hl'. by apply list_lookup_middle.
Qed.

Lemma pass_order_insensitive_witness :
  let env := λ i : nat,
    match i with
    | O => Scenario.table_down 900
    | S _ => Scenario.calm 901
    end in
  let env' := λ i : nat,
    match i with
    | O => Scenario.calm 901
    | S _ => Scenario.table_down 900
    end in
  let out := check Scenario.lib Scenario.checker_cfg
               (LastPage (Some [Scenario.a_fresh; Scenario.b_stale]))
               env Scenario.start in
  let out' := check Scenario.lib Scenario.checker_cfg
                (MorePages (Some [Scenario.b_stale]) "b"
                   (LastPage (Some [Scenario.a_fresh])))
                env' Scenario.start in
  table out.2 = table out'.2
  ∧ (table out'.2 !! "b") ≫= error_state = Some true.
Proof.
  destruct (pass_order_insensitive Scenario.lib Scenario.checker_cfg
    (LastPage (Some [Scenario.a_fresh; Scenario.b_stale]))
    (MorePages (Some [Scenario.b_stale]) "b"
       (LastPage (Some [Scenario.a_fresh])))
    (λ i : nat, match i with
                | O => Scenario.table_down 900
                | S _ => Scenario.calm 901
                end)
    (λ i : nat, match i with
                | O => Scenario.calm 901
                | S _ => Scenario.table_down 900
                end)
    Scenario.start
    [Scenario.a_fresh; Scenario.b_stale] [Scenario.b_stale; Scenario.a_fresh]
    Scenario.scanned
    {| table := Scenario.registry;
       journal := [Scan "prod" None; Scan "prod" (Some "b")] |})
    as (_ & _ & Htable & _).
  - reflexivity.
  - reflexivity.
  - apply Permutation_swap.
  - simpl. apply NoDup_cons.
    split; [by rewrite list_elem_of_singleton | apply NoDup_singleton].
  - intros [|[|i]] [|[|j]] c Hi Hj; vm_compute in Hi, Hj;
      first [congruence | reflexivity].
  - by vm_compute.
  - split; [exact Htable | by vm_compute].
Defined.

(** ** Further properties of the handlers *)

(** *** Loading the modules *)

Lemma split_nonempty sep s : split sep s ≠ [].
Proof.
  destruct s as [|c s]; [done|]. simpl.
  destruct (Ascii.eqb c sep); [done|]. by destruct (split sep s).
Qed.

Lemma split_join sep s : join sep (split sep s) = s.
Proof.
  induction s as [|c s IH]; [done|]. simpl.
  pose proof (split_nonempty sep s) as Hne.
  destruct (split sep s) as [|f fs]; [done|].
  destruct (Ascii.eqb_spec c sep) as [->|Hc].
  - change (join sep ("" :: f :: fs))
      with ("" +:+ String sep (join sep (f :: fs))).
    by rewrite IH.
  - destruct fs; simpl in *; by rewrite <- IH.
Qed.

Lemma contains_char_cons sep c f :
  contains (String sep "") (String c f)
  = Ascii.eqb sep c || contains (String sep "") f.
Proof. simpl. by destruct (Ascii.eqb sep c), f. Qed.

Lemma split_fields sep s :
  Forall (λ f, contains (String sep "") f = false) (split sep s).
Proof.
  induction s as [|c s IH]; simpl.
  - by constructor.
  - destruct (Ascii.eqb_spec c sep) as [->|Hne].
    + by constructor.
    + pose proof (split_nonempty sep s) as Hs.
      destruct (split sep s) as [|f fs]; [done|].
      inversion IH as [|? ? Hf Hfs]; subst. constructor; [|done].
      rewrite contains_char_cons, Hf, orb_false_r.
      apply Ascii.eqb_neq. congruence.
Qed.

Lemma decide_in_environ (os_environ : gmap string string) key :
  bool_decide (key ∈ dom os_environ)
  = match os_environ !! key with Some _ => true | None => false end.
Proof.
  destruct (os_environ !! key) as [v|] eqn:Hk.
  - apply bool_decide_eq_true_2, elem_of_dom. by exists v.
  - apply bool_decide_eq_false_2. by apply not_elem_of_dom.
Qed.

Lemma in_environ (os_environ : gmap string string) key :
  key ∈ dom os_environ ↔ ∃ v, os_environ !! key = Some v.
Proof. rewrite elem_of_dom. reflexivity. Qed.

Ltac load_module :=
  cbv [Api.module_init Checker.module_init Api.REQUIRED_ENVIRONMENT_VARIABLES
       Checker.REQUIRED_ENVIRONMENT_VARIABLES require_environment_variables
       environ_get bind ret raise logger emit extend];
  rewrite ?decide_in_environ.

(** What loading checker.py does, by the variables that are set. *)
Lemma checker_module_init_run os_environ w :
  Checker.module_init os_environ w
  = match os_environ !! "ENVIRONMENT_NAME", os_environ !! "MAX_TIME_SECONDS",
          os_environ !! "SLACK_CHANNEL", os_environ !! "SLACK_TOKEN" with
    | None, _, _, _ =>
        (Raise (SystemExit 1),
         extend w [Log ERROR ("ENVIRONMENT_NAME" +:+
                              " is a required environment variable")])
    | Some _, None, _, _ =>
        (Raise (SystemExit 1),
         extend w [Log ERROR ("MAX_TIME_SECONDS" +:+
                              " is a required environment variable")])
    | Some _, Some _, None, _ =>
        (Raise (SystemExit 1),
         extend w [Log ERROR ("SLACK_CHANNEL" +:+
                              " is a required environment variable")])
    | Some _, Some _, Some _, None =>
        (Raise (SystemExit 1),
         extend w [Log ERROR ("SLACK_TOKEN" +:+
                              " is a required environment variable")])
    | Some en, Some mt, Some sc, Some st =>
        match os_environ !! "SCALE_DOWN_CLUSTERS" with
        | None =>
            (Ok {| ENVIRONMENT_NAME := en; MAX_TIME_SECONDS := mt;
                   SLACK_CHANNEL := sc; SLACK_TOKEN := st;
                   SCALE_DOWN_CLUSTERS := []; SCALE_UP_CRON := "";
                   SCALE_DOWN_CRON := "" |}, w)
        | Some clusters =>
            match os_environ !! "SCALE_UP_CRON",
                  os_environ !! "SCALE_DOWN_CRON" with
            | None, _ =>
                (Raise (SystemExit 1),
                 extend w [Log ERROR
                   ("SCALE_UP_CRON is a required environment variable " +:+
                    "if SCALED_DOWN_CLUSTERS set")])
            | Some _, None =>
                (Raise (SystemExit 1),
                 extend w [Log ERROR
                   ("SCALE_DOWN_CRON is a required environment variable " +:+
                    "if SCALED_DOWN_CLUSTERS set")])
            | Some up, Some down =>
                (Ok {| ENVIRONMENT_NAME := en; MAX_TIME_SECONDS := mt;
                       SLACK_CHANNEL := sc; SLACK_TOKEN := st;
                       SCALE_DOWN_CLUSTERS := split "," clusters;
                       SCALE_UP_CRON := up; SCALE_DOWN_CRON := down |}, w)
            end
        end
    end.
Proof.
  load_module.
  destruct (os_environ !! "ENVIRONMENT_NAME") as [en|]; [|done].
  destruct (os_environ !! "MAX_TIME_SECONDS") as [mt|]; [|done].
  destruct (os_environ !! "SLACK_CHANNEL") as [sc|]; [|done].
  destruct (os_environ !! "SLACK_TOKEN") as [st|]; [|done].
  destruct (os_environ !! "SCALE_DOWN_CLUSTERS") as [clusters|]; [|done].
  destruct (os_environ !! "SCALE_UP_CRON") as [up|]; [|done].
  by destruct (os_environ !! "SCALE_DOWN_CRON") as [down|].
Qed.

Lemma api_module_init_run os_environ w :
  Api.module_init os_environ w
  = match os_environ !! "ENVIRONMENT_NAME", os_environ !! "VERIFY_TOKEN" with
    | None, _ =>
        (Raise (SystemExit 1),
         extend w [Log ERROR ("ENVIRONMENT_NAME" +:+
                              " is a required environment variable")])
    | Some _, None =>
        (Raise (SystemExit 1),
         extend w [Log ERROR ("VERIFY_TOKEN" +:+
                              " is a required environment variable")])
    | Some en, Some vt =>
        (Ok {| Api.VERIFY_TOKEN := vt; Api.ENVIRONMENT_NAME := en |}, w)
    end.
Proof.
  load_module.
  destruct (os_environ !! "ENVIRONMENT_NAME") as [en|]; [|done].
  by destruct (os_environ !! "VERIFY_TOKEN") as [vt|].
Qed.

(** X1.  checker.py loads exactly when the four required variables are set and,
    if SCALE_DOWN_CLUSTERS is set, both cron variables are set too; it then
    logs nothing.  Otherwise loading ends in [sys.exit(1)] after one error
    line; it never ends in a KeyError. *)
Theorem checker_module_init_loads os_environ w :
  let ready :=
    Forall (λ v, v ∈ dom os_environ) Checker.REQUIRED_ENVIRONMENT_VARIABLES
    ∧ ("SCALE_DOWN_CLUSTERS" ∈ dom os_environ →
       "SCALE_UP_CRON" ∈ dom os_environ ∧ "SCALE_DOWN_CRON" ∈ dom os_environ) in
  let out := Checker.module_init os_environ w in
  (ready → ∃ cfg, out = (Ok cfg, w))
  ∧ (¬ ready →
     out.1 = Raise (SystemExit 1) ∧ ∃ msg, out.2 = extend w [Log ERROR msg]).
Proof.
  cbv zeta. rewrite checker_module_init_run.
  unfold Checker.REQUIRED_ENVIRONMENT_VARIABLES.
  rewrite !Forall_cons, Forall_nil, !in_environ.
  assert (Hnone : ∀ P : Prop, (∃ v : string, None = Some v) → P)
    by (by intros P [v Hv]).
  destruct (os_environ !! "ENVIRONMENT_NAME") as [en|].
  2: { split; [intros [(H & _) _]; by apply Hnone | eauto]. }
  destruct (os_environ !! "MAX_TIME_SECONDS") as [mt|].
  2: { split; [intros [(_ & H & _) _]; by apply Hnone | eauto]. }
  destruct (os_environ !! "SLACK_CHANNEL") as [sc|].
  2: { split; [intros [(_ & _ & H & _) _]; by apply Hnone | eauto]. }
  destruct (os_environ !! "SLACK_TOKEN") as [st|].
  2: { split; [intros [(_ & _ & _ & H & _) _]; by apply Hnone | eauto]. }
  destruct (os_environ !! "SCALE_DOWN_CLUSTERS") as [clusters|].
  2: { split; [eauto|]. intros Hn. exfalso. apply Hn.
       split; [repeat split; eauto|]. intros H. by apply Hnone. }
  destruct (os_environ !! "SCALE_UP_CRON") as [up|].
  2: { split; [|eauto]. intros [_ H]. destruct H as [H _]; [eauto|].
       by apply Hnone. }
  destruct (os_environ !! "SCALE_DOWN_CRON") as [down|].
  2: { split; [|eauto]. intros [_ H]. destruct H as [_ H]; [eauto|].
       by apply Hnone. }
  split; [eauto|]. intros Hn. exfalso. apply Hn. repeat split; eauto.
Qed.

(** X2.  The settings checker.py loads are the variables as they are set.  When
    SCALE_DOWN_CLUSTERS is set, the maintenance group is its comma-separated
    fields, untrimmed: joined with commas they give the variable back, none
    contains a comma, and there is at least one (the empty name, for an empty
    variable).  When it is not set the group is empty and both cron
    expressions are the empty string, whatever the cron variables hold. *)
Theorem checker_module_init_settings os_environ w cfg w' :
  Checker.module_init os_environ w = (Ok cfg, w') →
  w' = w
  ∧ os_environ !! "ENVIRONMENT_NAME" = Some (ENVIRONMENT_NAME cfg)
  ∧ os_environ !! "MAX_TIME_SECONDS" = Some (MAX_TIME_SECONDS cfg)
  ∧ os_environ !! "SLACK_CHANNEL" = Some (SLACK_CHANNEL cfg)
  ∧ os_environ !! "SLACK_TOKEN" = Some (SLACK_TOKEN cfg)
  ∧ match os_environ !! "SCALE_DOWN_CLUSTERS" with
    | Some clusters =>
        join "," (SCALE_DOWN_CLUSTERS cfg) = clusters
        ∧ Forall (λ name, contains "," name = false) (SCALE_DOWN_CLUSTERS cfg)
        ∧ SCALE_DOWN_CLUSTERS cfg ≠ []
        ∧ os_environ !! "SCALE_UP_CRON" = Some (SCALE_UP_CRON cfg)
        ∧ os_environ !! "SCALE_DOWN_CRON" = Some (SCALE_DOWN_CRON cfg)
    | None =>
        SCALE_DOWN_CLUSTERS cfg = []
        ∧ SCALE_UP_CRON cfg = "" ∧ SCALE_DOWN_CRON cfg = ""
    end.
Proof.
  rewrite checker_module_init_run.
  destruct (os_environ !! "ENVIRONMENT_NAME") as [en|]; [|done].
  destruct (os_environ !! "MAX_TIME_SECONDS") as [mt|]; [|done].
  destruct (os_environ !! "SLACK_CHANNEL") as [sc|]; [|done].
  destruct (os_environ !! "SLACK_TOKEN") as [st|]; [|done].
  destruct (os_environ !! "SCALE_DOWN_CLUSTERS") as [clusters|].
  2: { by intros [= <- <-]. }
  destruct (os_environ !! "SCALE_UP_CRON") as [up|]; [|done].
  destruct (os_environ !! "SCALE_DOWN_CRON") as [down|]; [|done].
  intros [= <- <-]. simpl.
  repeat split; try done.
  - apply split_join.
  - apply split_fields.
  - apply split_nonempty.
Qed.

Lemma checker_module_init_settings_witness :
  let os_environ : gmap string string :=
    {[ "ENVIRONMENT_NAME" := "prod"; "MAX_TIME_SECONDS" := "300";
       "SLACK_CHANNEL" := "#ops"; "SLACK_TOKEN" := "xoxb";
       "SCALE_DOWN_CLUSTERS" := "dev, staging,";
       "SCALE_UP_CRON" := "0 6 * * *"; "SCALE_DOWN_CRON" := "0 20 * * *" ]} in
  (Checker.module_init os_environ Scenario.start).1
  = Ok {| ENVIRONMENT_NAME := "prod"; MAX_TIME_SECONDS := "300";
          SLACK_CHANNEL := "#ops"; SLACK_TOKEN := "xoxb";
          SCALE_DOWN_CLUSTERS := ["dev"; " staging"; ""];
          SCALE_UP_CRON := "0 6 * * *"; SCALE_DOWN_CRON := "0 20 * * *" |}
  ∧ join "," ["dev"; " staging"; ""] = "dev, staging,".
Proof.
  split; [by vm_compute|].
  pose proof (checker_module_init_settings
    {[ "ENVIRONMENT_NAME" := "prod"; "MAX_TIME_SECONDS" := "300";
       "SLACK_CHANNEL" := "#ops"; "SLACK_TOKEN" := "xoxb";
       "SCALE_DOWN_CLUSTERS" := "dev, staging,";
       "SCALE_UP_CRON" := "0 6 * * *"; "SCALE_DOWN_CRON" := "0 20 * * *" ]}
    Scenario.start
    {| ENVIRONMENT_NAME := "prod"; MAX_TIME_SECONDS := "300";
       SLACK_CHANNEL := "#ops"; SLACK_TOKEN := "xoxb";
       SCALE_DOWN_CLUSTERS := ["dev"; " staging"; ""];
       SCALE_UP_CRON := "0 6 * * *"; SCALE_DOWN_CRON := "0 20 * * *" |}
    Scenario.start) as H.
  destruct H as (_ & _ & _ & _ & _ & H); [by vm_compute|].
  exact (proj1 H).
Defined.

(** X3.  Without SCALE_DOWN_CLUSTERS in the environment no cluster is ever held
    back: whatever the cron variables hold and whatever croniter answers,
    [check_cluster_cron] returns True for every cluster and logs nothing. *)
Theorem no_group_no_window os_environ w cfg w' lib m name w1 :
  Checker.module_init os_environ w = (Ok cfg, w') →
  "SCALE_DOWN_CLUSTERS" ∉ dom os_environ →
  check_cluster_cron lib cfg m name w1 = (Ok true, w1).
Proof.
  intros Hinit Hunset.
  destruct (checker_module_init_settings _ _ _ _ Hinit)
    as (_ & _ & _ & _ & _ & Hgroup).
  apply not_elem_of_dom in Hunset. rewrite Hunset in Hgroup.
  destruct Hgroup as (Hempty & _ & _).
  rewrite check_cluster_cron_run.
  destruct (cron_outside_group lib cfg m name) as [-> ->].
  - rewrite Hempty. apply not_elem_of_nil.
  - by rewrite extend_nil.
Qed.

Lemma no_group_no_window_witness :
  let os_environ : gmap string string :=
    {[ "ENVIRONMENT_NAME" := "prod"; "MAX_TIME_SECONDS" := "300";
       "SLACK_CHANNEL" := "#ops"; "SLACK_TOKEN" := "xoxb";
       "SCALE_UP_CRON" := "0 6 * * *"; "SCALE_DOWN_CRON" := "0 20 * * *" ]} in
  let cfg := {| ENVIRONMENT_NAME := "prod"; MAX_TIME_SECONDS := "300";
                SLACK_CHANNEL := "#ops"; SLACK_TOKEN := "xoxb";
                SCALE_DOWN_CLUSTERS := []; SCALE_UP_CRON := "";
                SCALE_DOWN_CRON := "" |} in
  check_cluster_cron Scenario.lib cfg (Scenario.evening 1000) "dev"
    Scenario.start
  = (Ok true, Scenario.start).
Proof.
  apply (no_group_no_window
    {[ "ENVIRONMENT_NAME" := "prod"; "MAX_TIME_SECONDS" := "300";
       "SLACK_CHANNEL" := "#ops"; "SLACK_TOKEN" := "xoxb";
       "SCALE_UP_CRON" := "0 6 * * *"; "SCALE_DOWN_CRON" := "0 20 * * *" ]}
    Scenario.start _ Scenario.start).
  - by vm_compute.
  - apply not_elem_of_dom. by vm_compute.
Defined.

(** X4.  api.py loads exactly when ENVIRONMENT_NAME and VERIFY_TOKEN are both
    set; the two globals are then the variables as set and nothing is logged.
    Otherwise loading ends in [sys.exit(1)] after one error line that names
    the first missing variable, ENVIRONMENT_NAME before VERIFY_TOKEN. *)
Theorem api_module_init_loads os_environ w :
  let out := Api.module_init os_environ w in
  (Forall (λ v, v ∈ dom os_environ) Api.REQUIRED_ENVIRONMENT_VARIABLES →
   ∃ cfg, out = (Ok cfg, w)
          ∧ os_environ !! "VERIFY_TOKEN" = Some (Api.VERIFY_TOKEN cfg)
          ∧ os_environ !! "ENVIRONMENT_NAME"
            = Some (Api.ENVIRONMENT_NAME cfg))
  ∧ ("ENVIRONMENT_NAME" ∉ dom os_environ →
     out = (Raise (SystemExit 1),
            extend w [Log ERROR
              "ENVIRONMENT_NAME is a required environment variable"]))
  ∧ ("ENVIRONMENT_NAME" ∈ dom os_environ →
     "VERIFY_TOKEN" ∉ dom os_environ →
     out = (Raise (SystemExit 1),
            extend w [Log ERROR
              "VERIFY_TOKEN is a required environment variable"])).
Proof.
  cbv zeta. rewrite api_module_init_run.
  unfold Api.REQUIRED_ENVIRONMENT_VARIABLES.
  rewrite !Forall_cons, Forall_nil, !in_environ.
  destruct (os_environ !! "ENVIRONMENT_NAME") as [en|],
           (os_environ !! "VERIFY_TOKEN") as [vt|];
    (split; [|split]); try done;
    try (by intros ([? ?] & [? ?] & _));
    try (intros Hn; exfalso; apply Hn; by eauto);
    try (intros _ Hn; exfalso; apply Hn; by eauto);
    eauto.
Qed.

(** X5.  Run as a script with both variables set, api.py is always let through
    by its own token check: when the table accepts the update it answers 200
    and leaves a row for the cluster "test", stamped with the current time, in
    the table named by ENVIRONMENT_NAME. *)
Theorem script_run_records_test os_environ m w en vt :
  os_environ !! "ENVIRONMENT_NAME" = Some en →
  os_environ !! "VERIFY_TOKEN" = Some vt →
  update_item_raises m = None →
  let now := time_time m in
  let out := Api.main os_environ m w in
  out.1 = Ok {| Api.statusCode := 200; Api.body := str now |}
  ∧ updates (since w out.2) = [("test", SetEpochSeconds now)]
  ∧ UpdateItem en "test" (SetEpochSeconds now) ∈ since w out.2
  ∧ (table out.2 !! "test") ≫= epoch_seconds = Some now.
Proof.
  cbv zeta. intros Hen Hvt Hok.
  assert (Hrun : Api.main os_environ m w
    = Api.webhook {| Api.VERIFY_TOKEN := vt; Api.ENVIRONMENT_NAME := en |} m
        {| Api.method := "POST";
           Api.path := {[ "cluster_name" := "test" ]};
           Api.query := {[ "verify_token" := vt ]} |} w).
  { unfold Api.main, bind. by rewrite api_module_init_run, Hen, Hvt. }
  rewrite Hrun, (webhook_accepts_run _ _ _ _ "test");
    [|apply lookup_singleton_eq..|done].
  cbn [fst snd table journal Api.ENVIRONMENT_NAME].
  rewrite since_extend. split; [done|]. split; [done|].
  split; [|apply upsert_epoch_lookup].
  rewrite !elem_of_cons. eauto.
Qed.

Lemma script_run_records_test_witness :
  let os_environ : gmap string string :=
    {[ "ENVIRONMENT_NAME" := "prod"; "VERIFY_TOKEN" := "s3cret" ]} in
  (table (Api.main os_environ (Scenario.calm 1700000000) Scenario.start).2
     !! "test") ≫= epoch_seconds = Some 1700000000.
Proof.
  destruct (script_run_records_test
    {[ "ENVIRONMENT_NAME" := "prod"; "VERIFY_TOKEN" := "s3cret" ]}
    (Scenario.calm 1700000000) Scenario.start "prod" "s3cret")
    as (_ & _ & _ & H); [by vm_compute..|exact H].
Defined.

(** *** The Recorder off the happy path *)

(** X6.  With the right token but no cluster_name in the path, [webhook] raises
    KeyError after logging that the token was verified: no update request
    is issued and the table is as before. *)
Theorem webhook_missing_cluster_name cfg m ev w :
  Api.query ev !! "verify_token" = Some (Api.VERIFY_TOKEN cfg) →
  Api.path ev !! "cluster_name" = None →
  Api.webhook cfg m ev w
  = (Raise (KeyError "cluster_name"),
     extend w [Log INFO "Successfully verified token"]).
Proof.
  intros Htok Hpath. unfold Api.webhook, bind.
  rewrite verify_token_accepts by done. cbn [negb]. by rewrite Hpath.
Qed.

Lemma webhook_missing_cluster_name_witness :
  (Api.webhook Scenario.api_cfg (Scenario.calm 1700000000)
     {| Api.method := "POST"; Api.path := ∅;
        Api.query := {[ "verify_token" := "s3cret" ]} |} Scenario.start).1
  = Raise (KeyError "cluster_name").
Proof.
  rewrite (webhook_missing_cluster_name Scenario.api_cfg
    (Scenario.calm 1700000000)
    {| Api.method := "POST"; Api.path := ∅;
       Api.query := {[ "verify_token" := "s3cret" ]} |}
    Scenario.start); [reflexivity | by vm_compute | by vm_compute].
Defined.

(** X7.  When the table service refuses the update of an authorised heartbeat,
    [webhook] raises the internal-server-error exception: the one update
    request was issued, the error is logged twice at critical level, no
    response is returned and the table is as before. *)
Theorem webhook_write_refused cfg m ev w name err :
  Api.query ev !! "verify_token" = Some (Api.VERIFY_TOKEN cfg) →
  Api.path ev !! "cluster_name" = Some name →
  update_item_raises m = Some err →
  Api.webhook cfg m ev w
  = (Raise (Exception
       "[InternalServerError] DynamoDB Update Encountered an Error"),
     extend w
       [Log INFO "Successfully verified token";
        Log INFO ("Writing record for " +:+ name +:+ " with timestamp "
                  +:+ str (time_time m) +:+ " to DynamoDB");
        UpdateItem (Api.ENVIRONMENT_NAME cfg) name
          (SetEpochSeconds (time_time m));
        Log CRITICAL "DynamoDB Update Encountered an Error";
        Log CRITICAL err]).
Proof.
  intros Htok Hpath Hko. unfold Api.webhook, bind.
  rewrite verify_token_accepts by done. cbn [negb]. rewrite Hpath.
  rewrite logger_run, (dynamodb_write_fails _ _ _ _ _ err) by done.
  by rewrite !extend_extend.
Qed.

Lemma webhook_write_refused_witness :
  let out := Api.webhook Scenario.api_cfg (Scenario.table_down 1700000000)
               (Scenario.post_event (Some "s3cret")) Scenario.start in
  table out.2 = Scenario.registry
  ∧ updates (journal out.2) = [("test", SetEpochSeconds 1700000000)].
Proof.
  rewrite (webhook_write_refused Scenario.api_cfg
    (Scenario.table_down 1700000000) (Scenario.post_event (Some "s3cret"))
    Scenario.start "test" "ProvisionedThroughputExceededException"
    eq_refl eq_refl eq_refl).
  by vm_compute.
Defined.

Lemma upsert_epoch_twice k e1 e2 (t : gmap string item) :
  upsert k (SetEpochSeconds e2) (upsert k (SetEpochSeconds e1) t)
  = upsert k (SetEpochSeconds e2) t.
Proof.
  unfold upsert. rewrite lookup_insert_eq, insert_insert_eq. simpl.
  by destruct (t !! k).
Qed.

Lemma upsert_commute k1 u1 k2 u2 (t : gmap string item) :
  k1 ≠ k2 →
  upsert k1 u1 (upsert k2 u2 t) = upsert k2 u2 (upsert k1 u1 t).
Proof.
  intros Hne. unfold upsert.
  rewrite !lookup_insert_ne by done. by apply insert_insert_ne.
Qed.

(** X8.  The last accepted heartbeat wins.  Two authorised heartbeats for one
    cluster leave the table that the second alone would have left, whether
    the first was accepted or refused and whichever carries the later time:
    last_seen is the reading of the second, with no check that time moved
    forward. *)
Theorem last_heartbeat_wins cfg m1 m2 ev w name :
  Api.query ev !! "verify_token" = Some (Api.VERIFY_TOKEN cfg) →
  Api.path ev !! "cluster_name" = Some name →
  update_item_raises m2 = None →
  let w2 := (Api.webhook cfg m2 ev (Api.webhook cfg m1 ev w).2).2 in
  table w2 = table (Api.webhook cfg m2 ev w).2
  ∧ (table w2 !! name) ≫= epoch_seconds = Some (time_time m2).
Proof.
  cbv zeta. intros Htok Hpath Hok. rewrite !webhook_table.
  rewrite bool_decide_eq_true_2, Hpath, Hok by done.
  split; [|apply upsert_epoch_lookup].
  destruct (update_item_raises m1); [done | apply upsert_epoch_twice].
Qed.

Lemma last_heartbeat_wins_witness :
  let late := Scenario.calm 1700000900 in
  let early := Scenario.calm 1700000000 in
  let ev := Scenario.post_event (Some "s3cret") in
  (table (Api.webhook Scenario.api_cfg early ev
            (Api.webhook Scenario.api_cfg late ev Scenario.start).2).2
     !! "test") ≫= epoch_seconds = Some 1700000000.
Proof.
  exact (proj2 (last_heartbeat_wins Scenario.api_cfg
    (Scenario.calm 1700000900) (Scenario.calm 1700000000)
    (Scenario.post_event (Some "s3cret")) Scenario.start "test"
    eq_refl eq_refl eq_refl)).
Defined.

(** X9.  Heartbeats for different clusters do not interfere: in either order
    they leave the same table, whatever their tokens and whatever the table
    service answers to each. *)
Theorem heartbeats_commute cfg m1 m2 ev1 ev2 w :
  Api.path ev1 !! "cluster_name" ≠ Api.path ev2 !! "cluster_name" →
  table (Api.webhook cfg m2 ev2 (Api.webhook cfg m1 ev1 w).2).2
  = table (Api.webhook cfg m1 ev1 (Api.webhook cfg m2 ev2 w).2).2.
Proof.
  intros Hne. rewrite !webhook_table.
  repeat case_bool_decide; try done.
  destruct (Api.path ev1 !! "cluster_name") as [n1|],
           (Api.path ev2 !! "cluster_name") as [n2|]; try done.
  destruct (update_item_raises m1), (update_item_raises m2); try done.
  apply upsert_commute. congruence.
Qed.

Lemma heartbeats_commute_witness :
  let ev1 := Scenario.post_event (Some "s3cret") in
  let ev2 := {| Api.method := "POST";
                Api.path := {[ "cluster_name" := "a" ]};
                Api.query := {[ "verify_token" := "s3cret" ]} |} in
  table (Api.webhook Scenario.api_cfg (Scenario.calm 2000) ev2
           (Api.webhook Scenario.api_cfg (Scenario.calm 1000) ev1
              Scenario.start).2).2
  = table (Api.webhook Scenario.api_cfg (Scenario.calm 1000) ev1
             (Api.webhook Scenario.api_cfg (Scenario.calm 2000) ev2
                Scenario.start).2).2.
Proof.
  apply (heartbeats_commute Scenario.api_cfg (Scenario.calm 1000)
    (Scenario.calm 2000) (Scenario.post_event (Some "s3cret"))
    {| Api.method := "POST";
       Api.path := {[ "cluster_name" := "a" ]};
       Api.query := {[ "verify_token" := "s3cret" ]} |} Scenario.start).
  by vm_compute.
Defined.

(** *** Rows are kept *)

Lemma upsert_dom k u (t : gmap string item) :
  dom (upsert k u t) = {[ k ]} ∪ dom t.
Proof. unfold upsert. apply dom_insert_L. Qed.

Lemma upsert_epoch_stamped k e (t : gmap string item) :
  stamped t → stamped (upsert k (SetEpochSeconds e) t).
Proof.
  intros Ht k' row. unfold upsert.
  destruct (decide (k = k')) as [->|Hne].
  - rewrite lookup_insert_eq. intros [= <-]. by eexists.
  - rewrite lookup_insert_ne by done. apply Ht.
Qed.

Lemma commit_present_dom name wr (t : gmap string item) :
  name ∈ dom t → dom (commit name wr t) = dom t.
Proof.
  intros Hin. destruct wr; [|done]. simpl. rewrite upsert_dom.
  by apply subseteq_union_1_L, singleton_subseteq_l.
Qed.

Lemma commit_present_stamped name wr (t : gmap string item) :
  name ∈ dom t → stamped t → stamped (commit name wr t).
Proof.
  intros Hin Ht. destruct wr as [b|]; [|done]. simpl.
  intros k row. unfold upsert.
  destruct (decide (name = k)) as [->|Hne].
  - rewrite lookup_insert_eq. intros [= <-]. simpl.
    apply elem_of_dom in Hin as [old Hold]. rewrite Hold. simpl. by eapply Ht.
  - rewrite lookup_insert_ne by done. apply Ht.
Qed.

(** X10.  The Recorder never removes a row, and a table in which every row has
    epoch_seconds stays so. *)
Theorem recorder_keeps_rows cfg m ev w :
  let t' := table (Api.webhook cfg m ev w).2 in
  dom (table w) ⊆ dom t' ∧ (stamped (table w) → stamped t').
Proof.
  cbv zeta. rewrite webhook_table. case_bool_decide; [|done].
  destruct (Api.path ev !! "cluster_name") as [name|]; [|done].
  destruct (update_item_raises m); [done|].
  split; [rewrite upsert_dom; apply union_subseteq_r
        | apply upsert_epoch_stamped].
Qed.

Lemma check_loop_keeps_rows lib cfg env i l w :
  Forall (λ c, cluster_name c ∈ dom (table w)) l →
  dom (table (check_loop lib cfg env i l w).2) = dom (table w)
  ∧ (stamped (table w) → stamped (table (check_loop lib cfg env i l w).2)).
Proof.
  revert i w. induction l as [|c l IH]; intros i w Hl; [done|].
  inversion Hl as [|? ? Hc Hrest]; subst. simpl. unfold bind.
  rewrite check_iteration_local.
  pose proof (commit_present_dom (cluster_name c)
                (iteration_write lib cfg (env i) c) (table w) Hc) as Hdom.
  destruct (iteration_result lib cfg (env i) c) as [[]|e]; simpl.
  - match goal with
    | |- context [check_loop lib cfg env (S i) l ?w0] =>
        destruct (IH (S i) w0) as [IHd IHs]
    end.
    { simpl. by rewrite Hdom. }
    simpl in *. rewrite IHd, Hdom. split; [done|].
    intros Hs. by apply IHs, commit_present_stamped.
  - split; [done|]. by apply commit_present_stamped.
Qed.

(** X11.  When every scanned cluster still has its row, a pass neither adds nor
    removes a row, and a table in which every row has epoch_seconds stays
    so. *)
Theorem evaluator_keeps_rows lib cfg svc env w l ws :
  dynamodb_scan svc (ENVIRONMENT_NAME cfg) w = (Ok l, ws) →
  Forall (λ c, cluster_name c ∈ dom (table w)) l →
  let t' := table (check lib cfg svc env w).2 in
  dom t' = dom (table w) ∧ (stamped (table w) → stamped t').
Proof.
  cbv zeta. intros Hscan Hl.
  rewrite (check_scanned lib cfg svc env w l ws Hscan).
  pose proof (dynamodb_scan_table svc (ENVIRONMENT_NAME cfg) w) as Hs.
  rewrite Hscan in Hs. simpl in Hs. rewrite <- Hs in *.
  by apply check_loop_keeps_rows.
Qed.

Lemma evaluator_keeps_rows_witness :
  dom (table (check Scenario.lib Scenario.checker_cfg Scenario.first_scan
                (λ _, Scenario.calm 1000) Scenario.start).2)
  = dom Scenario.registry.
Proof.
  apply (evaluator_keeps_rows Scenario.lib Scenario.checker_cfg
    Scenario.first_scan (λ _, Scenario.calm 1000) Scenario.start
    [Scenario.a_fresh; Scenario.b_stale] Scenario.scanned).
  - reflexivity.
  - repeat constructor; apply elem_of_dom; by vm_compute.
Defined.

(** X12.  When the row of a scanned cluster is gone by the time its update is
    applied, the update creates a row that has error_state and no
    epoch_seconds. *)
Theorem update_recreates_vanished_row lib cfg m c w e max :
  (check_cluster_cron lib cfg m (cluster_name c) w).1 = Ok true →
  epoch_seconds (attributes c) = Some e →
  int lib (MAX_TIME_SECONDS cfg) = Some max →
  update_item_raises m = None →
  table w !! cluster_name c = None →
  table (check_iteration lib cfg m c w).2 !! cluster_name c
  = Some {| epoch_seconds := None;
            error_state := Some (time_time m - e >? max) |}.
Proof.
  intros Hproc He Hmax Hok Hgone. apply processed_verdict in Hproc.
  destruct (Z_gt_le_dec (time_time m - e) max) as [Hstale|Hfresh].
  - rewrite (check_iteration_stale lib cfg m c w e max) by done.
    replace (time_time m - e >? max) with true
      by (symmetry; by apply Z.gtb_lt, Z.gt_lt).
    simpl. unfold written, upsert. by rewrite Hok, lookup_insert_eq, Hgone.
  - rewrite (check_iteration_fresh lib cfg m c w e max) by done.
    replace (time_time m - e >? max) with false
      by (symmetry; rewrite Z.gtb_ltb; by apply Z.ltb_ge).
    simpl. unfold written, upsert. by rewrite Hok, lookup_insert_eq, Hgone.
Qed.

Lemma update_recreates_vanished_row_witness :
  table (check_iteration Scenario.lib Scenario.checker_cfg
           (Scenario.calm 1000) Scenario.b_stale
           {| table := ∅; journal := [] |}).2 !! "b"
  = Some {| epoch_seconds := None; error_state := Some true |}.
Proof.
  apply (update_recreates_vanished_row Scenario.lib Scenario.checker_cfg
    (Scenario.calm 1000) Scenario.b_stale {| table := ∅; journal := [] |}
    600 300); reflexivity.
Defined.

(** *** The scan *)

Lemma scan_pages_run tn key svc acc w :
  scan_pages tn key svc acc w
  = (match scan_error svc with
     | None => Ok (acc ++ scan_items svc)
     | Some err => Raise (ClientError err)
     end,
     extend w (scan_requests tn key svc)).
Proof.
  revert key acc w. induction svc as [err|items|items k next IH];
    intros key acc w; simpl; unfold bind; rewrite emit_run.
  - reflexivity.
  - reflexivity.
  - rewrite IH, extend_extend. simpl. destruct (scan_error next); [done|].
    by rewrite <- app_assoc.
Qed.

Lemma scan_requests_quiet tn key svc :
  updates (scan_requests tn key svc) = []
  ∧ posts (scan_requests tn key svc) = [].
Proof.
  revert key. induction svc as [err|items|items k next IH]; intros key;
    simpl; first [done | apply IH].
Qed.

(** X13.  A scan that the table service answers to the end returns the items of
    all its pages, in page order, a page without [Items] contributing none.
    It issues one scan request per page, the first without a start key and
    each next one starting after the key the page before returned, and
    leaves the table as it was. *)
Theorem scan_gathers_all_pages svc tn w :
  scan_error svc = None →
  dynamodb_scan svc tn w
  = (Ok (scan_items svc), extend w (scan_requests tn None svc)).
Proof.
  intros Hok. unfold dynamodb_scan, try_except.
  by rewrite scan_pages_run, Hok.
Qed.

Lemma scan_gathers_all_pages_witness :
  dynamodb_scan
    (MorePages (Some [Scenario.a_fresh]) "a"
       (MorePages None "a" (LastPage (Some [Scenario.b_stale]))))
    "prod" Scenario.start
  = (Ok [Scenario.a_fresh; Scenario.b_stale],
     {| table := Scenario.registry;
        journal := [Scan "prod" None; Scan "prod" (Some "a");
                    Scan "prod" (Some "a")] |}).
Proof.
  by rewrite (scan_gathers_all_pages
    (MorePages (Some [Scenario.a_fresh]) "a"
       (MorePages None "a" (LastPage (Some [Scenario.b_stale]))))
    "prod" Scenario.start eq_refl).
Defined.

Lemma check_run lib cfg svc env w :
  check lib cfg svc env w
  = match scan_error svc with
    | None =>
        check_loop lib cfg env 0 (scan_items svc)
          (extend w (scan_requests (ENVIRONMENT_NAME cfg) None svc))
    | Some err =>
        (Raise (SystemExit 1),
         extend w (scan_requests (ENVIRONMENT_NAME cfg) None svc
                   ++ [Log CRITICAL "DynamoDB Scan Encountered an Error";
                       Log CRITICAL err]))
    end.
Proof.
  unfold check, bind, dynamodb_scan, try_except.
  rewrite scan_pages_run. destruct (scan_error svc) as [err|]; [|done].
  unfold bind. rewrite !logger_run, !extend_extend. reflexivity.
Qed.

(** X14.  When the table service fails on any page of the scan, the pass ends in
    [sys.exit(1)] after two critical log lines: the records of the pages
    already read are dropped, no cluster is processed, no update and no post
    is issued, and the table is as before. *)
Theorem scan_failure_aborts_pass lib cfg svc env w err :
  scan_error svc = Some err →
  let out := check lib cfg svc env w in
  out = (Raise (SystemExit 1),
         extend w (scan_requests (ENVIRONMENT_NAME cfg) None svc
                   ++ [Log CRITICAL "DynamoDB Scan Encountered an Error";
                       Log CRITICAL err]))
  ∧ updates (since w out.2) = []
  ∧ posts (since w out.2) = []
  ∧ table out.2 = table w.
Proof.
  cbv zeta. intros Herr. rewrite check_run, Herr. cbn [fst snd].
  rewrite since_extend_world, updates_app, posts_app.
  destruct (scan_requests_quiet (ENVIRONMENT_NAME cfg) None svc) as [-> ->].
  done.
Qed.

Lemma scan_failure_aborts_pass_witness :
  let out := check Scenario.lib Scenario.checker_cfg
               (MorePages (Some [Scenario.b_stale]) "b"
                  (ScanRaises "InternalServerError"))
               (λ _, Scenario.calm 1000) Scenario.start in
  out.1 = Raise (SystemExit 1) ∧ posts (journal out.2) = [].
Proof.
  destruct (scan_failure_aborts_pass Scenario.lib Scenario.checker_cfg
    (MorePages (Some [Scenario.b_stale]) "b"
       (ScanRaises "InternalServerError"))
    (λ _, Scenario.calm 1000) Scenario.start "InternalServerError" eq_refl)
    as (Hout & _).
  rewrite Hout. by vm_compute.
Defined.

(** *** Passes that stop early *)

(** X15.  A processed record without epoch_seconds stops the pass with a KeyError:
    nothing is issued for it, the records after it are never looked at, and
    what was written for the records before it stays written. *)
Theorem missing_epoch_aborts_pass lib cfg svc env w l1 c l2 w1 :
  reaches lib cfg svc env w l1 c l2 w1 →
  let m := env (length l1) in
  (check_cluster_cron lib cfg m (cluster_name c) w1).1 = Ok true →
  epoch_seconds (attributes c) = None →
  let out := check lib cfg svc env w in
  out = (Raise (KeyError "epoch_seconds"),
         extend w1 (cron_log lib cfg m (cluster_name c)))
  ∧ updates (since w1 out.2) = []
  ∧ posts (since w1 out.2) = []
  ∧ table out.2 = table w1.
Proof.
  cbv zeta. intros Hreach Hproc He. apply processed_verdict in Hproc.
  rewrite (check_reaches _ _ _ _ _ _ _ _ _ Hreach). unfold bind.
  rewrite check_iteration_no_epoch by done. cbn [fst snd].
  rewrite since_extend_world.
  by destruct (cron_log_quiet lib cfg (env (length l1)) (cluster_name c))
    as [-> ->].
Qed.

Lemma missing_epoch_aborts_pass_witness :
  let out := check Scenario.lib Scenario.checker_cfg
               (LastPage (Some [Cluster "ghost" (Item None (Some false));
                                Scenario.b_stale]))
               (λ _, Scenario.calm 1000) Scenario.start in
  out.1 = Raise (KeyError "epoch_seconds")
  ∧ updates (journal out.2) = [].
Proof.
  destruct (missing_epoch_aborts_pass Scenario.lib Scenario.checker_cfg
    (LastPage (Some [Cluster "ghost" (Item None (Some false));
                     Scenario.b_stale]))
    (λ _, Scenario.calm 1000) Scenario.start
    [] (Cluster "ghost" (Item None (Some false))) [Scenario.b_stale]
    Scenario.scanned) as (Hout & _).
  - exists Scenario.scanned. split; by vm_compute.
  - reflexivity.
  - reflexivity.
  - rewrite Hout. by vm_compute.
Defined.

(** One iteration, by the way it takes through the loop body. *)
Lemma iteration_summary lib cfg m c :
  let name := cluster_name c in
  let log := cron_log lib cfg m name in
  (iteration_result lib cfg m c = Ok tt
   ∧ iteration_write lib cfg m c = None
   ∧ iteration_effects lib cfg m c = log
   ∧ cron_verdict lib cfg m name = false)
  ∨ ((∃ e, iteration_result lib cfg m c = Raise e)
     ∧ iteration_write lib cfg m c = None
     ∧ iteration_effects lib cfg m c = log
     ∧ cron_verdict lib cfg m name = true
     ∧ (epoch_seconds (attributes c) = None
        ∨ int lib (MAX_TIME_SECONDS cfg) = None))
  ∨ (∃ e max,
       epoch_seconds (attributes c) = Some e
       ∧ int lib (MAX_TIME_SECONDS cfg) = Some max
       ∧ cron_verdict lib cfg m name = true
       ∧ iteration_result lib cfg m c = Ok tt
       ∧ iteration_write lib cfg m c
         = match update_item_raises m with
           | Some _ => None
           | None => Some (time_time m - e >? max)
           end
       ∧ iteration_effects lib cfg m c
         = log ++ (if time_time m - e >? max
                   then alert_effects cfg m name (time_time m - e)
                   else fresh_effects cfg m name (time_time m - e)
                          (prior_alert c))).
Proof.
  cbv zeta. unfold iteration_result, iteration_effects, iteration_write.
  destruct (cron_verdict lib cfg m (cluster_name c)) eqn:Hv.
  2: { left. by rewrite check_iteration_skipped. }
  right.
  destruct (epoch_seconds (attributes c)) as [e|] eqn:He.
  2: { left. rewrite check_iteration_no_epoch by done. simpl. eauto 10. }
  destruct (int lib (MAX_TIME_SECONDS cfg)) as [max|] eqn:Hi.
  2: { left. rewrite (check_iteration_no_threshold _ _ _ _ _ e) by done.
       simpl. eauto 10. }
  right. exists e, max.
  destruct (Z_gt_le_dec (time_time m - e) max) as [Hstale|Hfresh].
  - rewrite (check_iteration_stale _ _ _ _ _ e max) by done.
    replace (time_time m - e >? max) with true
      by (symmetry; by apply Z.gtb_lt, Z.gt_lt).
    simpl. unfold written.
    destruct (update_item_raises m); repeat split; try done.
    apply upsert_error_state_lookup.
  - rewrite (check_iteration_fresh _ _ _ _ _ e max) by done.
    replace (time_time m - e >? max) with false
      by (symmetry; rewrite Z.gtb_ltb; by apply Z.ltb_ge).
    simpl. unfold written.
    destruct (update_item_raises m); repeat split; try done.
    apply upsert_error_state_lookup.
Qed.

Lemma check_loop_run lib cfg env i l w :
  ∃ t, (check_loop lib cfg env i l w).2
       = {| table := t; journal := journal w ++ pass_effects lib cfg env i l |}
       ∧ ((∀ c, c ∈ l → ∀ j, iteration_write lib cfg (env j) c = None) →
          t = table w).
Proof.
  revert i w. induction l as [|c l IH]; intros i w; simpl.
  - exists (table w). destruct w. simpl. by rewrite app_nil_r.
  - unfold bind. rewrite check_iteration_local.
    destruct (iteration_result lib cfg (env i) c) as [[]|e].
    + match goal with
      | |- context [check_loop lib cfg env (S i) l ?w0] =>
          destruct (IH (S i) w0) as (t & -> & Ht)
      end.
      exists t. simpl. rewrite <- app_assoc. split; [done|].
      intros Hnone. rewrite Ht.
      * simpl. rewrite Hnone; [done | by left].
      * intros c' Hc'. apply Hnone. by right.
    + eexists. simpl. rewrite app_nil_r. split; [done|].
      intros Hnone. rewrite Hnone; [done | by left].
Qed.

Lemma cron_log_logs lib cfg m name :
  Forall (λ e, ∃ lvl msg, e = Log lvl msg) (cron_log lib cfg m name).
Proof.
  unfold cron_log, check_cluster_cron.
  destruct (negb (bool_decide (name ∈ SCALE_DOWN_CLUSTERS cfg)));
    [by constructor|].
  destruct (negb (croniter_is_valid lib (SCALE_DOWN_CRON cfg))
            || negb (croniter_is_valid lib (SCALE_UP_CRON cfg))).
  { repeat constructor. eauto. }
  cbv zeta.
  destruct (croniter_get_prev lib (SCALE_DOWN_CRON cfg) (datetime_now m)
            >? croniter_get_prev lib (SCALE_UP_CRON cfg) (datetime_now m));
    repeat constructor; eauto.
Qed.

(** X16.  With a threshold that [int] rejects, the Evaluator never alerts and
    never writes: whatever it scans, a pass issues no update and no post and
    leaves the table as it was (it stops with ValueError at the first
    processed record that has epoch_seconds). *)
Theorem bad_threshold_never_alerts lib cfg svc env w :
  int lib (MAX_TIME_SECONDS cfg) = None →
  let out := check lib cfg svc env w in
  updates (since w out.2) = []
  ∧ posts (since w out.2) = []
  ∧ table out.2 = table w.
Proof.
  cbv zeta. intros Hint.
  assert (Hquiet : ∀ m c,
    iteration_write lib cfg m c = None
    ∧ updates (iteration_effects lib cfg m c) = []
    ∧ posts (iteration_effects lib cfg m c) = []).
  { intros m c.
    destruct (cron_log_quiet lib cfg m (cluster_name c)) as [Hu Hp].
    destruct (iteration_summary lib cfg m c)
      as [(_ & -> & -> & _) | [(_ & -> & -> & _) | (e & max & _ & Hi & _)]];
      [done | done | congruence]. }
  rewrite check_run.
  destruct (scan_requests_quiet (ENVIRONMENT_NAME cfg) None svc) as [Hsu Hsp].
  destruct (scan_error svc) as [err|].
  { cbn [fst snd]. rewrite since_extend_world, updates_app, posts_app.
    by rewrite Hsu, Hsp. }
  match goal with
  | |- context [check_loop lib cfg env 0 ?l ?w0] =>
      destruct (check_loop_run lib cfg env 0 l w0) as (t & -> & Ht)
  end.
  cbn [fst snd table journal extend].
  rewrite <- app_assoc, since_extend, updates_app, posts_app, Hsu, Hsp.
  assert (Hpass : ∀ l i, updates (pass_effects lib cfg env i l) = []
                         ∧ posts (pass_effects lib cfg env i l) = []).
  { induction l as [|c l IH]; intros i; [done|]. simpl.
    rewrite updates_app, posts_app.
    destruct (Hquiet (env i) c) as (_ & -> & ->).
    destruct (iteration_result lib cfg (env i) c); [apply IH | done]. }
  destruct (Hpass (scan_items svc) 0%nat) as [-> ->].
  split; [done|]. split; [done|].
  apply Ht. intros c _ j. apply Hquiet.
Qed.

Lemma bad_threshold_never_alerts_witness :
  let cfg := {| ENVIRONMENT_NAME := "prod"; MAX_TIME_SECONDS := "5 minutes";
                SLACK_CHANNEL := "#ops"; SLACK_TOKEN := "xoxb";
                SCALE_DOWN_CLUSTERS := []; SCALE_UP_CRON := "";
                SCALE_DOWN_CRON := "" |} in
  posts (since Scenario.start
           (check Scenario.lib cfg Scenario.first_scan
              (λ _, Scenario.calm 1000000) Scenario.start).2) = [].
Proof.
  apply (bad_threshold_never_alerts Scenario.lib
    {| ENVIRONMENT_NAME := "prod"; MAX_TIME_SECONDS := "5 minutes";
       SLACK_CHANNEL := "#ops"; SLACK_TOKEN := "xoxb";
       SCALE_DOWN_CLUSTERS := []; SCALE_UP_CRON := "";
       SCALE_DOWN_CRON := "" |}
    Scenario.first_scan (λ _, Scenario.calm 1000000) Scenario.start).
  reflexivity.
Defined.

(** *** What a pass may issue *)

Lemma addressed_weaken cfg names names' e :
  (∀ k, k ∈ names → k ∈ names') →
  addressed cfg names e → addressed cfg names' e.
Proof.
  intros Hsub. destruct e; simpl; try done.
  intros (Ht & Hk & Hu). auto.
Qed.

Lemma addressed_logs cfg names j :
  Forall (λ e, ∃ lvl msg, e = Log lvl msg) j → Forall (addressed cfg names) j.
Proof.
  intros Hj. eapply Forall_impl; [exact Hj|]. by intros e (lvl & msg & ->).
Qed.

Lemma addressed_post_outcome cfg names m text error :
  Forall (addressed cfg names) (post_outcome cfg m text error).
Proof.
  unfold post_outcome. constructor; [done|].
  destruct (post_raises m); by repeat constructor.
Qed.

Lemma addressed_update_outcome cfg m name b :
  Forall (addressed cfg [name])
    (update_outcome m (ENVIRONMENT_NAME cfg) name b).
Proof.
  unfold update_outcome. constructor.
  - simpl. split; [done|]. split; [by constructor | by exists b].
  - destruct (update_item_raises m); by repeat constructor.
Qed.

Lemma iteration_addressed lib cfg m c :
  let j := iteration_effects lib cfg m c in
  Forall (addressed cfg [cluster_name c]) j
  ∧ (length (posts j) ≤ length (updates j))%nat
  ∧ (length (updates j) ≤ 1)%nat.
Proof.
  cbv zeta.
  pose proof (addressed_logs cfg [cluster_name c] _
                (cron_log_logs lib cfg m (cluster_name c))) as Hlog.
  destruct (cron_log_quiet lib cfg m (cluster_name c)) as [Hu Hp].
  destruct (iteration_summary lib cfg m c)
    as [(_ & _ & -> & _) | [(_ & _ & -> & _)
        | (e & max & _ & _ & _ & _ & _ & ->)]].
  - rewrite Hu, Hp. split; [done|]. simpl. lia.
  - rewrite Hu, Hp. split; [done|]. simpl. lia.
  - rewrite updates_app, posts_app, Hu, Hp. simpl.
    destruct (time_time m - e >? max).
    + rewrite updates_alert_effects, posts_alert_effects. simpl.
      split; [|lia]. apply Forall_app. split; [done|].
      unfold alert_effects. repeat (apply Forall_app; split).
      * by repeat constructor.
      * apply addressed_post_outcome.
      * apply addressed_update_outcome.
    + rewrite updates_fresh_effects, posts_fresh_effects.
      split; [|destruct (prior_alert c); simpl; lia].
      apply Forall_app. split; [done|].
      unfold fresh_effects. repeat (apply Forall_app; split).
      * by repeat constructor.
      * destruct (prior_alert c); [|done].
        constructor; [done | apply addressed_post_outcome].
      * apply addressed_update_outcome.
Qed.

Lemma pass_effects_addressed lib cfg env i l :
  let j := pass_effects lib cfg env i l in
  Forall (addressed cfg (cluster_name <$> l)) j
  ∧ (length (posts j) ≤ length (updates j))%nat
  ∧ (length (updates j) ≤ length l)%nat.
Proof.
  cbv zeta. revert i. induction l as [|c l IH]; intros i; simpl.
  - split; [done|]. simpl. lia.
  - destruct (iteration_addressed lib cfg (env i) c) as (Ha & Hp & Hu).
    rewrite updates_app, posts_app, !length_app.
    assert (Ha' : Forall (addressed cfg (cluster_name c :: (cluster_name <$> l)))
                    (iteration_effects lib cfg (env i) c)).
    { eapply Forall_impl; [exact Ha|]. intros e. apply addressed_weaken.
      intros k ->%list_elem_of_singleton. by left. }
    destruct (iteration_result lib cfg (env i) c).
    + destruct (IH (S i)) as (IHa & IHp & IHu).
      split; [|lia]. apply Forall_app. split; [done|].
      eapply Forall_impl; [exact IHa|]. intros e. apply addressed_weaken.
      intros k Hk. by right.
    + simpl. split; [|lia]. apply Forall_app. by split.
Qed.

Lemma scan_requests_addressed cfg names key svc :
  Forall (addressed cfg names) (scan_requests (ENVIRONMENT_NAME cfg) key svc).
Proof.
  revert key. induction svc as [err|items|items k next IH]; intros key;
    simpl; constructor; first [done | apply IH].
Qed.

(** X17.  Whatever the services answer, the requests of a pass are addressed as
    configured: scans and updates go to the table named by ENVIRONMENT_NAME,
    every update sets error_state (never epoch_seconds) of a cluster that was
    scanned, and every post goes to chat.postMessage with the configured
    token and channel.  A pass issues at most one update per scanned record
    and never more posts than updates. *)
Theorem pass_requests_addressed lib cfg svc env w :
  let issued := since w (check lib cfg svc env w).2 in
  Forall (addressed cfg (cluster_name <$> scan_items svc)) issued
  ∧ (length (posts issued) ≤ length (updates issued))%nat
  ∧ (length (updates issued) ≤ length (scan_items svc))%nat.
Proof.
  cbv zeta. rewrite check_run.
  pose proof (scan_requests_addressed cfg (cluster_name <$> scan_items svc)
                None svc) as Hsa.
  destruct (scan_requests_quiet (ENVIRONMENT_NAME cfg) None svc) as [Hsu Hsp].
  destruct (scan_error svc) as [err|].
  - cbn [snd]. rewrite since_extend_world, updates_app, posts_app, Hsu, Hsp.
    split; [|simpl; lia]. apply Forall_app. split; [done|].
    by repeat constructor.
  - match goal with
    | |- context [check_loop lib cfg env 0 ?l ?w0] =>
        destruct (check_loop_run lib cfg env 0 l w0) as (t & -> & _)
    end.
    cbn [snd journal extend].
    rewrite <- app_assoc, since_extend, updates_app, posts_app, Hsu, Hsp.
    destruct (pass_effects_addressed lib cfg env 0 (scan_items svc))
      as (Ha & Hp & Hu).
    split; [by apply Forall_app|]. simpl. lia.
Qed.

(** *** Inside the group, outside the window *)

Lemma processed_as_without_maintenance lib cfg m c w :
  cron_verdict lib cfg m (cluster_name c) = true →
  check_iteration lib cfg m c w
  = check_iteration lib (without_maintenance cfg) m c
      (extend w (cron_log lib cfg m (cluster_name c))).
Proof.
  intros Hv.
  destruct (cron_outside_group lib (without_maintenance cfg) m (cluster_name c))
    as [Hv0 Hlog0]; [apply not_elem_of_nil|].
  destruct (epoch_seconds (attributes c)) as [e|] eqn:He.
  2: { rewrite !check_iteration_no_epoch by done.
       by rewrite Hlog0, extend_nil. }
  destruct (int lib (MAX_TIME_SECONDS cfg)) as [max|] eqn:Hi.
  2: { rewrite !(check_iteration_no_threshold _ _ _ _ _ e) by done.
       by rewrite Hlog0, extend_nil. }
  destruct (Z_gt_le_dec (time_time m - e) max) as [Hstale|Hfresh].
  - rewrite !(check_iteration_stale _ _ _ _ _ e max) by done.
    rewrite Hlog0. simpl. by rewrite <- !app_assoc.
  - rewrite !(check_iteration_fresh _ _ _ _ _ e max) by done.
    rewrite Hlog0. simpl. by rewrite <- !app_assoc.
Qed.

(** X18.  A cluster of the maintenance group whose latest scale-down is not later
    than its latest scale-up (equal times included) is processed: after the
    "scaled up" log line its iteration is the iteration of the deployment
    without maintenance settings. *)
Theorem scaled_up_is_processed lib cfg m c w :
  cluster_name c ∈ SCALE_DOWN_CLUSTERS cfg →
  croniter_is_valid lib (SCALE_DOWN_CRON cfg) = true →
  croniter_is_valid lib (SCALE_UP_CRON cfg) = true →
  (croniter_get_prev lib (SCALE_DOWN_CRON cfg) (datetime_now m)
   ≤ croniter_get_prev lib (SCALE_UP_CRON cfg) (datetime_now m))%Z →
  check_iteration lib cfg m c w
  = check_iteration lib (without_maintenance cfg) m c
      (extend w [Log INFO ("Cluster " +:+ cluster_name c
                           +:+ " is scaled up. Processing as normal.")]).
Proof.
  intros Hin Hdown Hup Hle.
  destruct (cron_scaled_up lib cfg m (cluster_name c) Hin Hdown Hup Hle)
    as [Hv Hlog].
  by rewrite processed_as_without_maintenance, Hlog.
Qed.

Lemma scaled_up_is_processed_witness :
  updates (journal (check_iteration Scenario.lib Scenario.checker_cfg
                      (Scenario.calm 1000) Scenario.dev_stale
                      Scenario.start).2)
  = [("dev", SetErrorState true)].
Proof.
  rewrite (scaled_up_is_processed Scenario.lib Scenario.checker_cfg
    (Scenario.calm 1000) Scenario.dev_stale Scenario.start).
  - by vm_compute.
  - simpl. by constructor.
  - reflexivity.
  - reflexivity.
  - by vm_compute.
Defined.

(** *** From one run to the next *)

(** The requests of the iteration of a processed record, and the table it
    leaves. *)
Lemma processed_iteration lib cfg m c w e max :
  (check_cluster_cron lib cfg m (cluster_name c) w).1 = Ok true →
  epoch_seconds (attributes c) = Some e →
  int lib (MAX_TIME_SECONDS cfg) = Some max →
  let it := check_iteration lib cfg m c w in
  let stale := time_time m - e >? max in
  let text := time_since_text (cluster_name c) (time_time m - e) in
  updates (since w it.2) = [(cluster_name c, SetErrorState stale)]
  ∧ posts (since w it.2)
    = (if stale then [notification cfg text true]
       else if prior_alert c then [notification cfg text false] else [])
  ∧ table it.2 = written m (cluster_name c) stale (table w).
Proof.
  cbv zeta. intros Hproc He Hmax. apply processed_verdict in Hproc.
  destruct (cron_log_quiet lib cfg m (cluster_name c)) as [Hu Hp].
  destruct (Z_gt_le_dec (time_time m - e) max) as [Hstale|Hfresh].
  - rewrite (check_iteration_stale _ _ _ _ _ e max) by done.
    replace (time_time m - e >? max) with true
      by (symmetry; by apply Z.gtb_lt, Z.gt_lt).
    cbn [snd table]. rewrite since_extend, updates_app, posts_app, Hu, Hp.
    by rewrite updates_alert_effects, posts_alert_effects.
  - rewrite (check_iteration_fresh _ _ _ _ _ e max) by done.
    replace (time_time m - e >? max) with false
      by (symmetry; rewrite Z.gtb_ltb; by apply Z.ltb_ge).
    cbn [snd table]. rewrite since_extend, updates_app, posts_app, Hu, Hp.
    by rewrite updates_fresh_effects, posts_fresh_effects.
Qed.

(** X19.  Recovery is announced once.  After the iteration of a fresh cluster
    whose update was accepted, a record read back from the table for that
    cluster gets no post in a later iteration in which it is still fresh,
    whatever its alert state was before the first iteration. *)
Theorem recovery_is_sent_once lib cfg m c w e max m' c' w' e' :
  (check_cluster_cron lib cfg m (cluster_name c) w).1 = Ok true →
  epoch_seconds (attributes c) = Some e →
  int lib (MAX_TIME_SECONDS cfg) = Some max →
  (time_time m - e ≤ max)%Z →
  update_item_raises m = None →
  table (check_iteration lib cfg m c w).2 !! cluster_name c
  = Some (attributes c') →
  (check_cluster_cron lib cfg m' (cluster_name c') w').1 = Ok true →
  epoch_seconds (attributes c') = Some e' →
  (time_time m' - e' ≤ max)%Z →
  posts (since w' (check_iteration lib cfg m' c' w').2) = [].
Proof.
  intros Hproc He Hmax Hfresh Hok Hread Hproc' He' Hfresh'.
  destruct (processed_iteration lib cfg m c w e max Hproc He Hmax)
    as (_ & _ & Ht).
  rewrite Ht in Hread. unfold written in Hread. rewrite Hok in Hread.
  unfold upsert in Hread. rewrite lookup_insert_eq in Hread.
  injection Hread as Hrow.
  destruct (processed_iteration lib cfg m' c' w' e' max Hproc' He' Hmax)
    as (_ & -> & _).
  replace (time_time m' - e' >? max) with false
    by (symmetry; rewrite Z.gtb_ltb; by apply Z.ltb_ge).
  unfold prior_alert. rewrite <- Hrow. simpl.
  replace (time_time m - e >? max) with false
    by (symmetry; rewrite Z.gtb_ltb; by apply Z.ltb_ge).
  done.
Qed.

Lemma recovery_is_sent_once_witness :
  let w2 := {| table := <[ "b" := Scenario.row 940 (Some true) ]>
                          Scenario.registry;
               journal := [] |} in
  let w3 := (check_iteration Scenario.lib Scenario.checker_cfg
               (Scenario.calm 1000) Scenario.b_back w2).2 in
  length (posts (since w2 w3)) = 1%nat
  ∧ posts (since w3
             (check_iteration Scenario.lib Scenario.checker_cfg
                (Scenario.calm 1060)
                (Cluster "b" (Scenario.row 940 (Some false))) w3).2) = [].
Proof.
  split; [by vm_compute|].
  apply (recovery_is_sent_once Scenario.lib Scenario.checker_cfg
    (Scenario.calm 1000) Scenario.b_back
    {| table := <[ "b" := Scenario.row 940 (Some true) ]> Scenario.registry;
       journal := [] |} 940 300 (Scenario.calm 1060)
    (Cluster "b" (Scenario.row 940 (Some false))) _ 940);
    by vm_compute.
Defined.

(** X20.  The alert is repeated, the recovery follows it.  After the iteration of
    a stale cluster whose update was accepted, a record read back from the
    table for that cluster gets the alert post again in a later iteration
    in which it is still stale, and exactly one recovery post in a later
    iteration in which it is fresh. *)
Theorem alert_repeats_until_recovery lib cfg m c w e max m' c' w' e' :
  (check_cluster_cron lib cfg m (cluster_name c) w).1 = Ok true →
  epoch_seconds (attributes c) = Some e →
  int lib (MAX_TIME_SECONDS cfg) = Some max →
  (time_time m - e > max)%Z →
  update_item_raises m = None →
  table (check_iteration lib cfg m c w).2 !! cluster_name c
  = Some (attributes c') →
  (check_cluster_cron lib cfg m' (cluster_name c') w').1 = Ok true →
  epoch_seconds (attributes c') = Some e' →
  let later := posts (since w' (check_iteration lib cfg m' c' w').2) in
  let text := time_since_text (cluster_name c') (time_time m' - e') in
  ((time_time m' - e' > max)%Z → later = [notification cfg text true])
  ∧ ((time_time m' - e' ≤ max)%Z → later = [notification cfg text false]).
Proof.
  cbv zeta. intros Hproc He Hmax Hstale Hok Hread Hproc' He'.
  destruct (processed_iteration lib cfg m c w e max Hproc He Hmax)
    as (_ & _ & Ht).
  rewrite Ht in Hread. unfold written in Hread. rewrite Hok in Hread.
  unfold upsert in Hread. rewrite lookup_insert_eq in Hread.
  injection Hread as Hrow.
  destruct (processed_iteration lib cfg m' c' w' e' max Hproc' He' Hmax)
    as (_ & -> & _).
  split.
  - intros Hstale'.
    by replace (time_time m' - e' >? max) with true
      by (symmetry; by apply Z.gtb_lt, Z.gt_lt).
  - intros Hfresh'.
    replace (time_time m' - e' >? max) with false
      by (symmetry; rewrite Z.gtb_ltb; by apply Z.ltb_ge).
    unfold prior_alert. rewrite <- Hrow. simpl.
    by replace (time_time m - e >? max) with true
      by (symmetry; by apply Z.gtb_lt, Z.gt_lt).
Qed.

Lemma alert_repeats_until_recovery_witness :
  let w2 := (check_iteration Scenario.lib Scenario.checker_cfg
               (Scenario.calm 1000) Scenario.b_stale Scenario.start).2 in
  let again := Cluster "b" (Scenario.row 600 (Some true)) in
  text <$> posts (since w2
                    (check_iteration Scenario.lib Scenario.checker_cfg
                       (Scenario.calm 1060) again w2).2)
  = [slack_text "Time since b checked in is 460 seconds" true].
Proof.
  cbv zeta.
  destruct (alert_repeats_until_recovery Scenario.lib Scenario.checker_cfg
    (Scenario.calm 1000) Scenario.b_stale Scenario.start 600 300
    (Scenario.calm 1060) (Cluster "b" (Scenario.row 600 (Some true)))
    (check_iteration Scenario.lib Scenario.checker_cfg
       (Scenario.calm 1000) Scenario.b_stale Scenario.start).2 600)
    as [Hagain _]; [by vm_compute.. |].
  rewrite Hagain; by vm_compute.
Defined.

(** X21.  A heartbeat resets the staleness and nothing else.  After an accepted
    heartbeat, a record read back from the table for that cluster carries
    the time of the heartbeat and the error_state the row had before.  In a
    later iteration its staleness is counted from the heartbeat, and if it
    is within the threshold and the row was alerting, that iteration is the
    one that posts the recovery. *)
Theorem heartbeat_resets_staleness api_cfg m0 ev w0 lib cfg m c w max :
  Api.query ev !! "verify_token" = Some (Api.VERIFY_TOKEN api_cfg) →
  Api.path ev !! "cluster_name" = Some (cluster_name c) →
  update_item_raises m0 = None →
  table (Api.webhook api_cfg m0 ev w0).2 !! cluster_name c
  = Some (attributes c) →
  (check_cluster_cron lib cfg m (cluster_name c) w).1 = Ok true →
  int lib (MAX_TIME_SECONDS cfg) = Some max →
  let it := check_iteration lib cfg m c w in
  let since_heartbeat := time_time m - time_time m0 in
  epoch_seconds (attributes c) = Some (time_time m0)
  ∧ error_state (attributes c) = (table w0 !! cluster_name c) ≫= error_state
  ∧ updates (since w it.2)
    = [(cluster_name c, SetErrorState (since_heartbeat >? max))]
  ∧ ((since_heartbeat ≤ max)%Z →
     (table w0 !! cluster_name c) ≫= error_state = Some true →
     posts (since w it.2)
     = [notification cfg
          (time_since_text (cluster_name c) since_heartbeat) false]).
Proof.
  cbv zeta. intros Htok Hpath Hok Hread Hproc Hmax.
  rewrite webhook_table, bool_decide_eq_true_2, Hpath, Hok in Hread by done.
  unfold upsert in Hread. rewrite lookup_insert_eq in Hread.
  injection Hread as Hrow.
  assert (He : epoch_seconds (attributes c) = Some (time_time m0))
    by (by rewrite <- Hrow).
  assert (Hes : error_state (attributes c)
                = (table w0 !! cluster_name c) ≫= error_state)
    by (by rewrite <- Hrow).
  destruct (processed_iteration lib cfg m c w (time_time m0) max Hproc He Hmax)
    as (Hu & Hp & _).
  split; [done|]. split; [done|]. split; [done|].
  intros Hfresh Halert. rewrite Hp.
  replace (time_time m - time_time m0 >? max) with false
    by (symmetry; rewrite Z.gtb_ltb; by apply Z.ltb_ge).
  unfold prior_alert. by rewrite Hes, Halert.
Qed.

Lemma heartbeat_resets_staleness_witness :
  let alerting := {| table := <[ "test" := Scenario.row 0 (Some true) ]>
                                Scenario.registry;
                     journal := [] |} in
  let back := Cluster "test" (Scenario.row 1000 (Some true)) in
  text <$> posts (since alerting
                    (check_iteration Scenario.lib Scenario.checker_cfg
                       (Scenario.calm 1100) back alerting).2)
  = [slack_text "Time since test checked in is 100 seconds" false].
Proof.
  cbv zeta.
  destruct (heartbeat_resets_staleness Scenario.api_cfg (Scenario.calm 1000)
    (Scenario.post_event (Some "s3cret"))
    {| table := <[ "test" := Scenario.row 0 (Some true) ]> Scenario.registry;
       journal := [] |}
    Scenario.lib Scenario.checker_cfg (Scenario.calm 1100)
    (Cluster "test" (Scenario.row 1000 (Some true)))
    {| table := <[ "test" := Scenario.row 0 (Some true) ]> Scenario.registry;
       journal := [] |} 300) as (_ & _ & _ & Hpost); [by vm_compute.. |].
  rewrite Hpost; by vm_compute.
Defined.
